(** * bitbrowser-automation: the card-binding workflow and the account-line splitter

    A shallow embedding of [auto_bind_card.py] and of [_split_account_line]
    from [web/backend/routers/accounts.py].

    Conventions.
    - A Python [str] is a [string]: a sequence of 8-bit characters.  For the
      data the pure functions inspect ([_normalize_exp_parts],
      [_split_account_line]) a character is a code point in U+0000..U+00FF;
      message and selector literals are kept as the UTF-8 bytes of the source
      text and are only concatenated and compared.
    - A Python [int] that is never negative is an [N].
    - A [dict] with string keys and string values is a [gmap string string];
      a key bound to [None] is treated like a missing key.
    - [print] and [asyncio.sleep] have no effect in the model: what is
      printed is not part of a trace, and a cancellation that arrives while
      the coroutine sleeps is not represented (an exception that is not an
      [Exception] is only ever the answer to a call). *)

From Stdlib Require Import String Ascii NArith List Lia.
From stdpp Require Import base option gmap strings list.

Open Scope string_scope.
Open Scope list_scope.
Open Scope nat_scope.

(** ** Python strings *)

Module Py.

(** [str.isdigit] on U+0000..U+00FF: the ASCII digits and the superscripts
    U+00B2, U+00B3 and U+00B9. *)
Definition isdigit (c : ascii) : bool :=
  let n := nat_of_ascii c in
  ((48 <=? n) && (n <=? 57)) || (n =? 178) || (n =? 179) || (n =? 185).

(** The characters [int] accepts as decimal digits: of those above, the
    ASCII ones only. *)
Definition isdecimal (c : ascii) : bool :=
  let n := nat_of_ascii c in (48 <=? n) && (n <=? 57).

(** [str.isspace] on U+0000..U+00FF. *)
Definition isspace (c : ascii) : bool :=
  let n := nat_of_ascii c in
  ((9 <=? n) && (n <=? 13)) || ((28 <=? n) && (n <=? 32))
  || (n =? 133) || (n =? 160).

Fixpoint filter (f : ascii -> bool) (s : string) : string :=
  match s with
  | EmptyString => EmptyString
  | String c s' => if f c then String c (filter f s') else filter f s'
  end.

Fixpoint lstrip (s : string) : string :=
  match s with
  | EmptyString => EmptyString
  | String c s' => if isspace c then lstrip s' else s
  end.

Fixpoint rstrip (s : string) : string :=
  match s with
  | EmptyString => EmptyString
  | String c s' =>
      match rstrip s' with
      | EmptyString => if isspace c then EmptyString else String c EmptyString
      | r => String c r
      end
  end.

(** [s.strip()] *)
Definition strip (s : string) : string := rstrip (lstrip s).

Fixpoint drop (n : nat) (s : string) : string :=
  match n, s with
  | S n', String _ s' => drop n' s'
  | _, _ => s
  end.

Fixpoint take (n : nat) (s : string) : string :=
  match n, s with
  | S n', String c s' => String c (take n' s')
  | _, _ => EmptyString
  end.

(** [s[-n:]] for [n > 0] *)
Definition last (n : nat) (s : string) : string :=
  drop (String.length s - n) s.

Fixpoint zeros (n : nat) : string :=
  match n with
  | O => EmptyString
  | S n' => String "0" (zeros n')
  end.

(** [s.zfill(width)]: zeros go after a leading sign. *)
Definition zfill (width : nat) (s : string) : string :=
  let pad := zeros (width - String.length s) in
  match s with
  | String c s' =>
      if (Ascii.eqb c "+" || Ascii.eqb c "-")%bool
      then String c (pad +:+ s') else pad +:+ s
  | EmptyString => pad
  end.

Definition digit_value (c : ascii) : N := N.of_nat (nat_of_ascii c - 48).

Definition digit_char (d : N) : ascii := ascii_of_nat (48 + N.to_nat d).

Fixpoint int_go (acc : N) (s : string) : option N :=
  match s with
  | EmptyString => Some acc
  | String c s' =>
      if isdecimal c then int_go (10 * acc + digit_value c)%N s' else None
  end.

(** The longest digit string [int] converts ([sys.int_info], from CPython
    3.11 on; an interpreter without the limit converts longer ones too). *)
Definition int_max_str_digits : nat := 4300.

(** [int(s)] for a string [s] of [isdigit] characters, which is all the
    program passes to it: [None] stands for [ValueError], raised on the
    empty string, on a digit that is not a decimal one, and on a string
    longer than the limit. *)
Definition int (s : string) : option N :=
  match s with
  | EmptyString => None
  | _ => if int_max_str_digits <? String.length s then None else int_go 0 s
  end.

Fixpoint str_go (fuel : nat) (n : N) (acc : string) : string :=
  match fuel with
  | O => acc
  | S fuel' =>
      let acc' := String (digit_char (n mod 10)) acc in
      if (n <? 10)%N then acc' else str_go fuel' (n / 10) acc'
  end.

(** [str(n)] for [n >= 0]; a number has no more decimal digits than bits. *)
Definition str (n : N) : string :=
  str_go (S (N.to_nat (N.log2 n))) n EmptyString.

(** [s.startswith(p)] *)
Fixpoint startswith (p s : string) : bool :=
  match p, s with
  | EmptyString, _ => true
  | String a p', String b s' => Ascii.eqb a b && startswith p' s'
  | String _ _, EmptyString => false
  end.

(** [s.find(sub)], with [None] for -1 *)
Fixpoint find (sub s : string) : option nat :=
  if startswith sub s then Some 0
  else match s with
       | EmptyString => None
       | String _ s' => S <$> find sub s'
       end.

(** [sub in s] *)
Definition contains (sub s : string) : bool :=
  match find sub s with Some _ => true | None => false end.

Fixpoint split_go (fuel : nat) (sep s : string) : list string :=
  match fuel with
  | O => [s]
  | S fuel' =>
      match find sep s with
      | None => [s]
      | Some i =>
          take i s :: split_go fuel' sep (drop (i + String.length sep) s)
      end
  end.

(** [s.split(sep)] for a non-empty [sep] ([ValueError] otherwise, which no
    caller in the program can trigger): cut at every occurrence of [sep],
    leftmost first. *)
Definition split (sep s : string) : list string :=
  split_go (String.length s) sep s.

Definition cons_nonempty (p : string) (ps : list string) : list string :=
  match p with EmptyString => ps | _ => p :: ps end.

Fixpoint split_ws_go (s : string) : string * list string :=
  match s with
  | EmptyString => (EmptyString, [])
  | String c s' =>
      let '(p, ps) := split_ws_go s' in
      if isspace c then (EmptyString, cons_nonempty p ps)
      else (String c p, ps)
  end.

(** [s.split()]: the maximal runs of non-whitespace characters. *)
Definition split_ws (s : string) : list string :=
  let '(p, ps) := split_ws_go s in cons_nonempty p ps.

(** Truthiness of a string, and of [x or y] on possibly-[None] strings. *)
Definition truthy (s : string) : bool :=
  match s with EmptyString => false | _ => true end.

Definition or_ (x y : option string) : option string :=
  match x with
  | Some s => if truthy s then x else y
  | None => y
  end.

End Py.

(** ** [auto_bind_card.py]: expiry normalisation *)

(** [_normalize_exp_parts(exp_month, exp_year)].  [None] is Python's [None]. *)
Definition _normalize_exp_parts (exp_month exp_year : option string)
  : string * string :=
  let mm := Py.filter Py.isdigit (Py.strip (default "" exp_month)) in
  let yy := Py.filter Py.isdigit (Py.strip (default "" exp_year)) in
  let yy := if 4 <=? String.length yy then Py.last 2 yy else yy in
  let mm := if String.length mm =? 1 then "0" +:+ mm else mm in
  let yy := if String.length yy =? 1 then "0" +:+ yy else yy in
  match (if Py.truthy mm then Py.int mm else Some 0%N),
        (if Py.truthy yy then Py.int yy else Some 0%N) with
  | Some mm_i, Some yy_i =>
      if ((12 <? mm_i) && (1 <=? yy_i) && (yy_i <=? 12))%N
      then (Py.zfill 2 yy, Py.last 2 (Py.str mm_i))
      else (mm, yy)
  | _, _ => (mm, yy)
  end.

(** ** [web/backend/routers/accounts.py]: account lines *)

Definition separators : list string :=
  ["----"; "---"; "|"; ","; ";"; String (ascii_of_nat 9) ""].

(** The [for sep in [...]: if sep in line: ...; break] loop. *)
Fixpoint first_separator (seps : list string) (line : string) : option string :=
  match seps with
  | [] => None
  | sep :: seps' =>
      if Py.contains sep line then Some sep else first_separator seps' line
  end.

(** [[p.strip() for p in parts if p.strip()]] *)
Fixpoint strip_parts (parts : list string) : list string :=
  match parts with
  | [] => []
  | p :: parts' =>
      if Py.truthy (Py.strip p) then Py.strip p :: strip_parts parts'
      else strip_parts parts'
  end.

Definition _split_account_line (line separator : string) : list string :=
  let parts :=
    if Py.truthy separator && Py.contains separator line
    then Py.split separator line
    else match first_separator separators line with
         | Some sep => Py.split sep line
         | None => Py.split_ws line
         end in
  strip_parts parts.

(** ** Effects: programs that call their environment

    Every operation on the browser page, and every call of a collaborator
    that is not part of this file, is a [call] answered by the environment,
    which either returns a value or raises.  A program is a tree of such
    calls; running it against a [world] yields an outcome and the trace of
    the calls made with their answers. *)

(** Python exceptions: [Exception] stands for the subclasses of [Exception];
    [BaseException] for those that only a bare [except:] catches
    ([KeyboardInterrupt], [SystemExit], [asyncio.CancelledError]). *)
Inductive exn : Type :=
| Exception (msg : string)
| BaseException (msg : string).

(** [str(e)] *)
Definition exn_msg (e : exn) : string :=
  match e with Exception m | BaseException m => m end.

(** [except Exception:] and the bare [except:] *)
Definition catch_Exception (e : exn) : bool :=
  match e with Exception _ => true | BaseException _ => false end.

Definition catch_all (e : exn) : bool := true.

(** What [auto_bind_card], [check_and_login] and the runners return. *)
Definition result : Type := bool * string.

(** How a block of statements ends: it runs to its end, executes [return],
    or raises. *)
Inductive outcome (A : Type) : Type :=
| Normal (a : A)
| Return (r : result)
| Raise (e : exn).
Arguments Normal {A} a.
Arguments Return {A} r.
Arguments Raise {A} e.

Section Prog.
Context {call : Type} {resp : call -> Type}.

Inductive prog (A : Type) : Type :=
| Done (o : outcome A)
| Call (c : call) (k : exn + resp c -> prog A).
Arguments Done {A} o.
Arguments Call {A} c k.

Definition ret {A} (a : A) : prog A := Done (Normal a).
Definition return_ {A} (r : result) : prog A := Done (Return r).
Definition raise {A} (e : exn) : prog A := Done (Raise e).

Fixpoint bind {A B} (p : prog A) (f : A -> prog B) : prog B :=
  match p with
  | Done (Normal a) => f a
  | Done (Return r) => Done (Return r)
  | Done (Raise e) => Done (Raise e)
  | Call c k => Call c (fun r => bind (k r) f)
  end.

(** One call: the answer is the value of the expression, or is raised. *)
Definition perform (c : call) : prog (resp c) :=
  Call c (fun r => match r with inl e => raise e | inr v => ret v end).

(** [try: p  except <catches> as e: h e] *)
Fixpoint try_with {A} (catches : exn -> bool) (p : prog A)
    (h : exn -> prog A) : prog A :=
  match p with
  | Done (Raise e) => if catches e then h e else Done (Raise e)
  | Done o => Done o
  | Call c k => Call c (fun r => try_with catches (k r) h)
  end.

(** [try: p  finally: fin]: [fin] runs however [p] ends, and what [p] did
    stands unless [fin] itself raises. *)
Fixpoint try_finally {A} (p : prog A) (fin : prog unit) : prog A :=
  match p with
  | Done o => bind fin (fun _ => Done o)
  | Call c k => Call c (fun r => try_finally (k r) fin)
  end.

(** A function body seen from its caller: [return v] gives [v], running off
    the end gives [None]. *)
Fixpoint invoke (body : prog unit) : prog (option result) :=
  match body with
  | Done (Normal _) => Done (Normal None)
  | Done (Return r) => Done (Normal (Some r))
  | Done (Raise e) => Done (Raise e)
  | Call c k => Call c (fun r => invoke (k r))
  end.

(** [for x in xs: ...] where the body either breaks with a value or goes on
    to the next element. *)
Fixpoint for_first {X A} (xs : list X) (body : X -> prog (option A))
  : prog (option A) :=
  match xs with
  | [] => ret None
  | x :: xs' =>
      bind (body x) (fun r =>
        match r with
        | Some a => ret (Some a)
        | None => for_first xs' body
        end)
  end.

(** A call with its answer. *)
Definition event : Type := { c : call & (exn + resp c)%type }.

(** The environment: the answer to a call, given everything that happened
    before it. *)
Definition world : Type := forall c : call, list event -> exn + resp c.

Fixpoint run {A} (w : world) (p : prog A) (tr : list event)
  : outcome A * list event :=
  match p with
  | Done o => (o, tr)
  | Call c k => let r := w c tr in run w (k r) (tr ++ [existT c r])
  end.

End Prog.

Arguments prog : clear implicits.
Arguments prog {call} resp A.
Arguments event : clear implicits.
Arguments event {call} resp.
Arguments world : clear implicits.
Arguments world {call} resp.
Arguments Done {call resp A} o.
Arguments Call {call resp A} c k.

Declare Scope prog_scope.
Delimit Scope prog_scope with prog.
Bind Scope prog_scope with prog.
Notation "x ← y ; z" := (bind y (fun x => z))
  (at level 20, y at level 100, z at level 200, only parsing) : prog_scope.
Notation "' x ← y ; z" := (bind y (fun x => z))
  (at level 20, x pattern, y at level 100, z at level 200, only parsing)
  : prog_scope.
Notation "x ;; z" := (bind x (fun _ => z))
  (at level 100, z at level 200, only parsing, right associativity)
  : prog_scope.
Open Scope prog_scope.

(** ** The browser page and the collaborators of [auto_bind_card.py] *)

Abbreviation dict := (gmap string string).

(** An element handle, as [page.wait_for_selector] returns it. *)
Definition handle : Type := nat.

(** An element of [page.frames]. *)
Record frame : Type := Frame { frame_id : nat; frame_url : string }.

(** Where a locator searches: the page, [page.frame_locator(selector)], or a
    frame taken from [page.frames]. *)
Inductive scope : Type :=
| Page
| FrameLocator (selector : string)
| InFrame (f : frame).

(** [.first], [.nth(i)], or every match. *)
Inductive pick : Type := All | First | Nth (i : nat).

(** [scope.locator(selector)], narrowed by [.first] or [.nth(i)].  Building a
    locator touches nothing; only the calls on it do. *)
Record locator : Type :=
  Locator { l_scope : scope; l_selector : string; l_pick : pick }.

Inductive call : Type :=
(* playwright, on the page *)
| WaitForSelector (selector : string) (state : option string) (timeout : N)
| PageClick (selector : string)
| PageFill (selector value : string)
| Screenshot (path : string)
| Frames
(* playwright, on an element handle *)
| HandleFill (h : handle) (value : string)
| HandleClick (h : handle) (force : bool)
(* playwright, on a locator *)
| Count (l : locator)
| IsVisible (l : locator)
| Click (l : locator) (force : bool)
| Fill (l : locator) (value : string)
| GetAttribute (l : locator) (name : string)
| EvaluateHandle (l : locator) (expression : string)
(* pyotp, google_recovery, account_manager *)
| TotpNow (secret : string)
| HandleRecoveryEmailChallenge (backup : option string)
| DetectManualVerification
| MoveToSubscribed (line : string).

Definition resp (c : call) : Type :=
  match c with
  | WaitForSelector _ _ _ => option handle
  | Frames => list frame
  | Count _ => nat
  | IsVisible _ => bool
  | GetAttribute _ _ => option string
  | EvaluateHandle _ _ => option handle   (* [.as_element()] of the JS handle *)
  | TotpNow _ => string
  | HandleRecoveryEmailChallenge _ => bool
  | DetectManualVerification => bool
  | PageClick _ | PageFill _ _ | Screenshot _ | HandleFill _ _
  | HandleClick _ _ | Click _ _ | Fill _ _ | MoveToSubscribed _ => unit
  end.

Abbreviation page_prog := (prog resp).

Definition await (c : call) : page_prog (resp c) := perform c.

(** A [str] parameter given [None]: playwright rejects the call before it
    reaches the page. *)
Definition str_arg (v : option string) : page_prog string :=
  match v with
  | Some s => ret s
  | None => raise (Exception "value: expected string, got undefined")
  end.

(** [d[key]] *)
Definition getitem (d : dict) (key : string) : page_prog string :=
  match d !! key with
  | Some s => ret s
  | None => raise (Exception ("'" +:+ key +:+ "'"))
  end.

(** [if not d] for a possibly-[None] dict *)
Definition dict_falsy (d : option dict) : bool :=
  match d with
  | None => true
  | Some m => bool_decide (m = ∅)
  end.

(** *** Selector text *)

Definition dq : string := String (ascii_of_nat 34) EmptyString.
Definition q (s : string) : string := dq +:+ s +:+ dq.
(** [tag:has-text("text")] *)
Definition has_text (tag text : string) : string :=
  tag +:+ ":has-text(" +:+ q text +:+ ")".
(** [:text("text")] *)
Definition text_is (text : string) : string := ":text(" +:+ q text +:+ ")".
(** [tag[name="value"]] *)
Definition attr_eq (tag name value : string) : string :=
  tag +:+ "[" +:+ name +:+ "=" +:+ q value +:+ "]".
(** [tag[name*="value"]] *)
Definition attr_has (tag name value : string) : string :=
  tag +:+ "[" +:+ name +:+ "*=" +:+ q value +:+ "]".

Definition tokenized_iframe : string :=
  attr_has "iframe" "src" "tokenized.play.google.com".

(** ** [check_and_login] *)

(** [account_info.get('backup') or account_info.get('backup_email')] *)
Definition backup_of (account_info : dict) : option string :=
  Py.or_ (account_info !! "backup") (account_info !! "backup_email").

(** [secret.replace(" ", "").strip()] *)
Definition clean_secret (secret : string) : string :=
  Py.strip (Py.filter (fun c => negb (Ascii.eqb c " ")) secret).

(** Step 3 of the login flow, with its own handler. *)
Definition login_2fa (account_info : dict) : page_prog unit :=
  try_with catch_Exception
    (totp_input ← await (WaitForSelector
        (attr_eq "input" "name" "totpPin" +:+ ", "
         +:+ attr_eq "input" "id" "totpPin" +:+ ", "
         +:+ attr_eq "input" "type" "tel") None 10000);
     match totp_input with
     | Some totp_input =>
         if Py.truthy (default "" (account_info !! "secret")) then
           let s := clean_secret (default "" (account_info !! "secret")) in
           code ← await (TotpNow s);
           await (HandleFill totp_input code);;
           await (PageClick "#totpNext >> button")
         else
           handled ← await (HandleRecoveryEmailChallenge (backup_of account_info));
           if negb handled
           then return_ (false, "需要2FA或辅助邮箱验证，但未提供secret")
           else ret ()
     | None => ret ()
     end)
    (fun e => ret ()).

(** Step 4 of the login flow, with its own handler. *)
Definition login_recovery (account_info : dict) : page_prog unit :=
  try_with catch_Exception
    (await (HandleRecoveryEmailChallenge (backup_of account_info));;
     manual ← await DetectManualVerification;
     if manual then return_ (false, "需要人工完成验证码") else ret ())
    (fun _ => ret ()).

(** The block under the bare [except:]: detection of the e-mail field and,
    when it is there, the whole login flow. *)
Definition login_flow (account_info : option dict) : page_prog unit :=
  email_input ← await (WaitForSelector (attr_eq "input" "type" "email") None 5000);
  match email_input with
  | Some email_input =>
      if dict_falsy account_info
      then return_ (false, "需要登录但未提供账号信息")
      else
        let account_info := default ∅ account_info in
        (* 1. e-mail *)
        email ← str_arg (account_info !! "email");
        await (HandleFill email_input email);;
        await (PageClick "#identifierNext >> button");;
        (* 2. password *)
        await (WaitForSelector (attr_eq "input" "type" "password")
                 (Some "visible") 15000);;
        password ← str_arg (account_info !! "password");
        await (PageFill (attr_eq "input" "type" "password") password);;
        await (PageClick "#passwordNext >> button");;
        (* 3. second factor *)
        login_2fa account_info;;
        (* 4. recovery e-mail page *)
        login_recovery account_info;;
        return_ (true, "登录成功")
  | None => ret ()
  end.

Definition check_and_login (account_info : option dict)
  : page_prog (option result) :=
  invoke
    (try_with catch_Exception
       (try_with catch_all
          (login_flow account_info)
          (fun _ => return_ (true, "已登录")))
       (fun e => return_ (false, "登录检测错误: " +:+ exn_msg e))).

(** ** [auto_bind_card]: the funnel before the card form *)

(** [if await element.count() > 0 and await element.is_visible(): await
    element.click()], telling whether it clicked. *)
Definition click_if_visible (element : locator) : page_prog (option unit) :=
  count ← await (Count element);
  if 0 <? count then
    visible ← await (IsVisible element);
    if (visible : bool) then await (Click element false);; ret (Some ())
    else ret None
  else ret None.

(** [if await element.count() > 0:], giving the element. *)
Definition if_present (element : locator) : page_prog (option locator) :=
  count ← await (Count element);
  if 0 <? count then ret (Some element) else ret None.

(** [if await element.count() > 0: await element.click()] *)
Definition click_if_present (element : locator) : page_prog (option unit) :=
  count ← await (Count element);
  if 0 <? count then await (Click element false);; ret (Some ()) else ret None.

(** A [try: ... except: continue] (or [except Exception: continue]) around a
    loop body. *)
Definition or_continue {A} (catches : exn -> bool) (body : page_prog (option A))
  : page_prog (option A) :=
  try_with catches body (fun _ => ret None).

Definition cta_selectors : list string :=
  [ "button.VfPpkd-LgbsSe-OWXEXe-k8QpJ";
    attr_has "button" "data-idom-class" "filled";
    "main button";
    attr_eq "" "role" "main" +:+ " button";
    "main " +:+ attr_eq "a" "role" "button";
    has_text "button" "Get student offer";
    has_text "button" "Get offer";
    has_text "a" "Get student offer" ].

Definition role_button : string := attr_eq "" "role" "button".

Definition funnel_subscribe_selectors : list string :=
  [ has_text "button" "Subscribe";
    has_text "button" "Subscribe now";
    has_text "button" "Start subscription";
    has_text "button" "Start plan";
    has_text "button" "Start trial";
    has_text role_button "Subscribe";
    has_text role_button "Subscribe now";
    has_text role_button "Start subscription";
    has_text role_button "Start plan";
    has_text role_button "Start trial";
    has_text "a" "Subscribe";
    has_text "a" "Subscribe now";
    has_text "button" "订阅";
    has_text "button" "确认订阅";
    has_text "button" "开始订阅";
    has_text "button" "立即订阅";
    has_text role_button "订阅";
    has_text role_button "确认订阅";
    has_text role_button "开始订阅";
    has_text "a" "订阅" ].

(** Step 1 and step 1.5: the main call-to-action button, then a subscribe
    button on the page or in any of its frames. *)
Definition stage_cta : page_prog unit :=
  try_with catch_Exception
    (clicked ← for_first cta_selectors (fun selector =>
        or_continue catch_all (click_if_visible (Locator Page selector First)));
     frames ← await Frames;
     let scopes := Page :: map InFrame frames in
     subscribed_clicked ← for_first scopes (fun scope =>
        for_first funnel_subscribe_selectors (fun selector =>
          or_continue catch_Exception
            (click_if_visible (Locator scope selector First))));
     (if subscribed_clicked is Some _
      then await (Screenshot "step2_after_subscribe_click.png")
      else ret ());;
     await (Screenshot "step2_after_get_offer.png"))
    (fun e => ret ()).

(** ** [auto_bind_card]: the account that already has a card *)

Definition early_subscribe_selectors : list string :=
  [ has_text "span.UywwFc-vQzf8d" "Subscribe";
    attr_eq "span" "jsname" "V67aGc";
    "span.UywwFc-vQzf8d";
    has_text "span" "Subscribe";
    text_is "Subscribe";
    has_text "button" "Subscribe" ].

Definition subscribed_selectors : list string :=
  [ text_is "Subscribed"; "text=Subscribed"; has_text "*" "Subscribed" ].

Definition error_selectors : list string :=
  [ text_is "Error"; "text=Error"; has_text "" "Your card issuer declined" ].

Definition got_it_selectors : list string :=
  [ has_text "button" "Got it"; text_is "Got it"; has_text "button" "确定" ].

Definition get_offer_selectors : list string :=
  [ "button.VfPpkd-LgbsSe-OWXEXe-k8QpJ";
    attr_has "button" "data-idom-class" "filled";
    "main button";
    attr_eq "" "role" "main" +:+ " button";
    "main " +:+ attr_eq "a" "role" "button";
    has_text "button" "Get student offer";
    text_is "Get student offer" ].

Definition card_selectors : list string :=
  [ "span.Ngbcnc"; "div.dROd9.ct1Mcc"; has_text "" "Mastercard" ].

Definition closest_button_js : string :=
  "el => el.closest('button,[role=" +:+ q "button" +:+ "],a') || el".

(** [account_info and account_info.get('email')] *)
Definition has_email (account_info : option dict) : bool :=
  negb (dict_falsy account_info)
  && Py.truthy (default "" (default ∅ account_info !! "email")).

(** The line handed to [AccountManager.move_to_subscribed]. *)
Definition account_line (account_info : option dict) : string :=
  let a := default ∅ account_info in
  default "" (a !! "email") +:+ "----" +:+ default "" (a !! "password")
  +:+ "----" +:+ default "" (a !! "backup")
  +:+ "----" +:+ default "" (a !! "secret").

(** [if account_info and account_info.get('email'):
    AccountManager.move_to_subscribed(line)] *)
Definition mark_subscribed (account_info : option dict) : page_prog unit :=
  if has_email account_info
  then await (MoveToSubscribed (account_line account_info))
  else ret ().

(** Lines 280-317: the subscribe button of an account that has a card
    already, looked for in the payment iframe and then on the page. *)
Definition find_existing_subscribe (iframe_locator : scope)
  : page_prog (option locator) :=
  in_iframe ← for_first early_subscribe_selectors (fun selector =>
      or_continue catch_all
        (if_present (Locator iframe_locator selector First)));
  match in_iframe with
  | Some element => ret (Some element)
  | None =>
      for_first early_subscribe_selectors (fun selector =>
        or_continue catch_all
          (let element := Locator Page selector First in
           count ← await (Count element);
           if 0 <? count then
             visible ← await (IsVisible element);
             if (visible : bool) then ret (Some element) else ret None
           else ret None))
  end.

(** Lines 322-338: click the button, falling back on its closest clickable
    ancestor, and take the screenshot. *)
Definition click_existing_subscribe (subscribe_button_early : locator)
  : page_prog unit :=
  try_with catch_Exception
    (await (Click subscribe_button_early true))
    (fun _ =>
       try_with catch_Exception
         (wrapper ← await (EvaluateHandle subscribe_button_early closest_button_js);
          match wrapper with
          | Some element => await (HandleClick element true)
          | None =>
              raise (Exception "'NoneType' object has no attribute 'click'")
          end)
         (fun _ => ret ()));;
  await (Screenshot "step_subscribe_existing_card.png").

(** [if await element.count() > 0: found = True] *)
Definition marker_present (element : locator) : page_prog (option unit) :=
  count ← await (Count element);
  if 0 <? count then ret (Some ()) else ret None.

(** A marker looked for with each selector in each scope: selectors outside,
    scopes inside. *)
Definition scan_marker (selectors : list string) (scopes : list scope)
  : page_prog bool :=
  found ← for_first selectors (fun selector =>
      for_first scopes (fun scope =>
        or_continue catch_all
          (marker_present (Locator scope selector First))));
  ret (if found is Some _ then true else false).

(** Lines 403-480: the card on file was declined; reopen the form. *)
Definition replace_card (iframe_locator : scope) : page_prog unit :=
  for_first got_it_selectors (fun selector =>
    or_continue catch_all
      (click_if_present (Locator iframe_locator selector First)));;
  for_first get_offer_selectors (fun selector =>
    or_continue catch_all (click_if_visible (Locator Page selector First)));;
  try_with catch_Exception
    (let iframe_locator_card := FrameLocator tokenized_iframe in
     for_first card_selectors (fun selector =>
       or_continue catch_all
         (click_if_present (Locator iframe_locator_card selector First)));;
     ret ())
    (fun e => ret ()).

(** Lines 341-487: after the click, look for "Subscribed", then for an
    error. *)
Definition verify_existing_subscribe (iframe_locator : scope)
    (account_info : option dict) : page_prog unit :=
  try_with catch_Exception
    (let check_scopes := [iframe_locator; Page] in
     subscribed_found ← scan_marker subscribed_selectors check_scopes;
     if (subscribed_found : bool) then
       mark_subscribed account_info;;
       return_ (true, "使用已有卡订阅成功 (Already bound, Subs cribed)")
     else
       let error_scopes := [iframe_locator; Page] in
       error_found ← scan_marker error_selectors error_scopes;
       if (error_found : bool) then replace_card iframe_locator
       else return_ (true, "使用已有卡订阅成功 (Already bound)"))
    (fun e => return_ (true, "使用已有卡订阅成功 (Already bound)")).

(** Lines 267-495. *)
Definition stage_precheck (account_info : option dict) : page_prog unit :=
  try_with catch_Exception
    (try_with catch_Exception
       (let iframe_locator := FrameLocator tokenized_iframe in
        subscribe_button_early ← find_existing_subscribe iframe_locator;
        match subscribe_button_early with
        | Some subscribe_button_early =>
            click_existing_subscribe subscribe_button_early;;
            verify_existing_subscribe iframe_locator account_info
        | None => ret ()
        end)
       (fun e => ret ()))
    (fun e => ret ()).

(** ** [auto_bind_card]: the card form *)

Definition add_card_selectors : list string :=
  [ has_text "button" "Ajouter une carte";
    has_text "button" "Add card";
    has_text "button" "Añadir tarjeta";
    has_text "button" "Karte hinzufügen";
    has_text "button" "添加卡";
    "span.PjwEQ";
    text_is "Add card";
    text_is "Ajouter" ].

(** Step 2 (lines 497-511): nothing in it touches the page. *)
Definition stage_iframe : page_prog scope :=
  try_with catch_Exception
    (ret (FrameLocator tokenized_iframe))
    (fun e => return_ (false, "未找到付款表单 iframe")).

Definition is_card_form_url (url : string) : bool :=
  Py.contains "instrumentmanager" url.

Definition is_card_form_url_retry (url : string) : bool :=
  Py.contains "instrumentmanager" url || Py.contains "payments.google.com" url.

(** Step 3 (lines 513-581): click "Add card" in the iframe and find the frame
    that holds the card form, looking twice. *)
Definition stage_add_card (iframe_locator : scope) : page_prog frame :=
  card_form_frame ←
    try_with catch_Exception
      (clicked ← for_first add_card_selectors (fun selector =>
          or_continue catch_all
            (click_if_present (Locator iframe_locator selector First)));
       await (Screenshot "step3_card_form_in_iframe.png");;
       frames ← await Frames;
       match List.find (fun f => is_card_form_url (frame_url f)) frames with
       | Some f => ret (Some f)
       | None =>
           frames ← await Frames;
           ret (List.find (fun f => is_card_form_url_retry (frame_url f)) frames)
       end)
      (fun e =>
         await (Screenshot "error_iframe_add_card.png");;
         return_ (false, "在 iframe 中点击 'Add card' 失败: " +:+ exn_msg e));
  match card_form_frame with
  | Some f => ret f
  | None => return_ (false, "未找到卡片输入表单 frame")
  end.

(** [f"输入框数量不足，只找到 {input_count} 个"] *)
Definition too_few_inputs (input_count : nat) : string :=
  "输入框数量不足，只找到 " +:+ Py.str (N.of_nat input_count) +:+ " 个".

(** [all_inputs.nth(i)] *)
Definition nth_of (all_inputs : locator) (i : nat) : locator :=
  Locator (l_scope all_inputs) (l_selector all_inputs) (Nth i).

(** Step 4 (lines 583-612): count the inputs of the frame and fill the first
    one.  The [print] before the [try] already reads [card_info['number']]. *)
Definition stage_card_number (card_info : dict) (card_form_frame : frame)
  : page_prog (locator * nat) :=
  getitem card_info "number";;
  try_with catch_Exception
    (let all_inputs := Locator (InFrame card_form_frame) "input" All in
     input_count ← await (Count all_inputs);
     if input_count <? 3 then return_ (false, too_few_inputs input_count)
     else
       let card_number_input := nth_of all_inputs 0 in
       await (Click card_number_input false);;
       number ← getitem card_info "number";
       await (Fill card_number_input number);;
       ret (all_inputs, input_count))
    (fun e => return_ (false, "填写卡号失败: " +:+ exn_msg e)).

(** [f"{exp_month}{exp_year}"] after normalisation *)
Definition exp_value (card_info : dict) : string :=
  let '(exp_month, exp_year) :=
    _normalize_exp_parts (Some (default "" (card_info !! "exp_month")))
                         (Some (default "" (card_info !! "exp_year"))) in
  exp_month +:+ exp_year.

(** Step 5 (lines 614-631). *)
Definition stage_expiry (card_info : dict) (all_inputs : locator)
  : page_prog unit :=
  try_with catch_Exception
    (let exp_date_input := nth_of all_inputs 1 in
     await (Click exp_date_input false);;
     await (Fill exp_date_input (exp_value card_info)))
    (fun e => return_ (false, "填写过期日期失败: " +:+ exn_msg e)).

(** Step 6 (lines 633-645); the [print] reads [card_info['cvv']] first. *)
Definition stage_cvv (card_info : dict) (all_inputs : locator)
  : page_prog unit :=
  getitem card_info "cvv";;
  try_with catch_Exception
    (let cvv_input := nth_of all_inputs 2 in
     await (Click cvv_input false);;
     cvv ← getitem card_info "cvv";
     await (Fill cvv_input cvv))
    (fun e => return_ (false, "填写CVV失败: " +:+ exn_msg e)).

(** The body of the loop of step 6.5. *)
Definition zip_body (all_inputs : locator) (input_count : nat)
    (zip_code : string) (i : nat) : page_prog (option unit) :=
  let zip_input := nth_of all_inputs i in
  input_type ← await (GetAttribute zip_input "type");
  if bool_decide (input_type = Some "tel") || (i =? input_count - 1)
  then
    await (Click zip_input false);;
    await (Fill zip_input zip_code);;
    ret (Some ())
  else ret None.

(** Step 6.5 (lines 647-664): the postal code goes into the first input from
    index 3 on that is of type [tel] or is the last one. *)
Definition stage_zip (card_info : dict) (all_inputs : locator)
    (input_count : nat) : page_prog unit :=
  let zip_code := default "" (card_info !! "zip") in
  if Py.truthy zip_code then
    try_with catch_Exception
      (for_first (seq 3 (input_count - 3))
         (zip_body all_inputs input_count zip_code);;
       ret ())
      (fun e => ret ())
  else ret ().

(** Steps 4 to 6.5 together. *)
Definition stage_card_entry (card_info : dict) (card_form_frame : frame)
  : page_prog unit :=
  '(all_inputs, input_count) ← stage_card_number card_info card_form_frame;
  stage_expiry card_info all_inputs;;
  stage_cvv card_info all_inputs;;
  stage_zip card_info all_inputs input_count.

Definition save_selectors : list string :=
  [ has_text "button" "Enregistrer";
    has_text "button" "Save";
    has_text "button" "Guardar";
    has_text "button" "Speichern";
    has_text "button" "保存";
    attr_eq "button" "type" "submit" ].

(** Step 7 (lines 666-697). *)
Definition stage_save (card_form_frame : frame) : page_prog unit :=
  try_with catch_Exception
    (save_button ← for_first save_selectors (fun selector =>
        or_continue catch_all
          (if_present (Locator (InFrame card_form_frame) selector First)));
     match save_button with
     | None => return_ (false, "未找到 Save card 按钮")
     | Some save_button => await (Click save_button false)
     end)
    (fun e => return_ (false, "点击 Save card 失败: " +:+ exn_msg e)).

(** ** [auto_bind_card]: subscribing and checking the outcome *)

Definition role_dialog : string := attr_eq "" "role" "dialog".

Definition final_subscribe_selectors : list string :=
  [ has_text "span.UywwFc-vQzf8d" "Subscribe";
    attr_eq "span" "jsname" "V67aGc";
    "span.UywwFc-vQzf8d";
    has_text "span" "Subscribe";
    text_is "Subscribe";
    has_text "button" "Subscribe";
    has_text "button" "订阅";
    has_text "button" "Start";
    has_text "button" "开始";
    has_text "button" "继续";
    has_text ("div" +:+ role_button) "Subscribe";
    has_text role_button "Subscribe";
    attr_eq "button" "type" "submit";
    has_text "dialog span" "Subscribe";
    has_text (role_dialog +:+ " span") "Subscribe";
    has_text "dialog button" "Subscribe";
    has_text (role_dialog +:+ " button") "Subscribe" ].

(** Lines 781-797: the last scan for the "Subscribed" marker, in the payment
    iframe only. *)
Definition final_scan : page_prog (option unit) :=
  let iframe_locator_final := FrameLocator tokenized_iframe in
  for_first subscribed_selectors (fun selector =>
    or_continue catch_all
      (marker_present (Locator iframe_locator_final selector First))).

(** Lines 776-815: after the click on the subscribe button. *)
Definition verify_subscribed (account_info : option dict) : page_prog unit :=
  try_with catch_Exception
    (subscribed_found ← final_scan;
     if subscribed_found is Some _ then
       mark_subscribed account_info;;
       return_ (true, "绑卡并订阅成功 (Subscribed confirmed)")
     else
       mark_subscribed account_info;;
       return_ (true, "绑卡并订阅成功 (Subscribed)"))
    (fun e => return_ (true, "绑卡并订阅成功 (Subscribed)")).

(** Lines 732-763: the subscribe button, looked for in the payment iframe and
    then on the page. *)
Definition find_subscribe_button : page_prog (option locator) :=
  in_iframe ←
    try_with catch_Exception
      (let iframe_locator_subscribe := FrameLocator tokenized_iframe in
       for_first final_subscribe_selectors (fun selector =>
         or_continue catch_all
           (if_present (Locator iframe_locator_subscribe selector First))))
      (fun e => ret None);
  match in_iframe with
  | Some element => ret (Some element)
  | None =>
      for_first final_subscribe_selectors (fun selector =>
        or_continue catch_Exception
          (if_present (Locator Page selector First)))
  end.

(** Lines 766-774: the click and the screenshot after it. *)
Definition click_subscribe (subscribe_button : locator) : page_prog unit :=
  await (Click subscribe_button false);;
  await (Screenshot "step8_after_subscribe.png").

(** Lines 699-826. *)
Definition stage_subscribe (account_info : option dict) : page_prog unit :=
  await (Screenshot "step7_before_subscribe.png");;
  try_with catch_Exception
    (subscribe_button ← find_subscribe_button;
     match subscribe_button with
     | Some subscribe_button =>
         click_subscribe subscribe_button;;
         verify_subscribed account_info
     | None => return_ (true, "绑卡成功")
     end)
    (fun e => return_ (true, "绑卡已完成")).

(** ** [auto_bind_card] *)

(** [login_success, login_msg = await check_and_login(page, account_info)] *)
Definition unpack {call} {resp : call -> Type} (r : option result)
  : prog resp result :=
  match r with
  | Some r => ret r
  | None => raise (Exception "cannot unpack non-iterable NoneType object")
  end.

(** Lines 158-161. *)
Definition stage_login (account_info : option dict) : page_prog unit :=
  '(login_success, login_msg) ← (r ← check_and_login account_info; unpack r);
  if negb login_success
  then return_ (false, "登录失败: " +:+ login_msg)
  else ret ().

(** Lines 158-265: what comes before the check for a card on file. *)
Definition before_precheck (account_info : option dict) : page_prog unit :=
  stage_login account_info;;
  await (Screenshot "step1_initial.png");;
  stage_cta.

(** Lines 158-581: what comes before the card form is filled. *)
Definition to_card_form (account_info : option dict) : page_prog frame :=
  before_precheck account_info;;
  stage_precheck account_info;;
  iframe_locator ← stage_iframe;
  stage_add_card iframe_locator.

(** Lines 583-826: the card form and what follows. *)
Definition from_card_form (card_info : dict) (account_info : option dict)
    (card_form_frame : frame) : page_prog unit :=
  stage_card_entry card_info card_form_frame;;
  stage_save card_form_frame;;
  stage_subscribe account_info.

Section AutoBindCard.

(** The module-level [DEFAULT_CARD], loaded when the module is imported. *)
Variable DEFAULT_CARD : dict.

Definition auto_bind_card (card_info account_info : option dict)
  : page_prog (option result) :=
  let card_info := default DEFAULT_CARD card_info in
  invoke
    (try_with catch_Exception
       (card_form_frame ← to_card_form account_info;
        from_card_form card_info account_info card_form_frame)
       (fun e => return_ (false, "绑卡错误: " +:+ exn_msg e))).

End AutoBindCard.

(** ** The runners: [test_bind_card_with_browser] and [bind_card_sync] *)

(** What [openBrowser] answers: [{'success': ..., 'data': {'ws': ...}}].
    [open_data] is [None] when the answer has no ['data'] entry and
    [Some None] when that entry has no ['ws']; an endpoint, when there is
    one, is a string.  [open_repr] is the text of the whole answer as an
    f-string prints it. *)
Record open_result : Type :=
  OpenResult { open_success : bool;
               open_data : option (option string);
               open_repr : string }.

(** [res.get('data', {}).get('ws')] *)
Definition open_ws (res : open_result) : option string :=
  default None (open_data res).

Inductive run_call : Type :=
| OnPage (c : call)                    (* whatever [auto_bind_card] does *)
| GetBrowserInfo (browser_id : string)
| OpenBrowser (browser_id : string)
| CloseBrowser (browser_id : string)
| PlaywrightStart                      (* entering [async with async_playwright()] *)
| PlaywrightStop                       (* leaving it *)
| ConnectOverCdp (ws_endpoint : string)
| BrowserContexts                      (* [len(browser.contexts)] *)
| ContextPages                         (* [len(context.pages)] *)
| NewPage
| Goto (url : string)
| BrowserClose
| LogCallback (msg : string)
| OpenAppend (name : string)           (* [open(path, 'a', encoding='utf-8')] *)
| Now                                  (* [datetime.now().strftime(...)] *)
| FileWrite (text : string)
| FileClose.

Definition run_resp (c : run_call) : Type :=
  match c with
  | OnPage c => resp c
  | GetBrowserInfo _ => option dict
  | OpenBrowser _ => open_result
  | BrowserContexts | ContextPages => nat
  | Now => string
  | CloseBrowser _ | PlaywrightStart | PlaywrightStop | ConnectOverCdp _
  | NewPage | Goto _ | BrowserClose | LogCallback _ | OpenAppend _
  | FileWrite _ | FileClose => unit
  end.

Abbreviation run_prog := (prog run_resp).

Definition do (c : run_call) : run_prog (run_resp c) := perform c.

(** A program on the page, run from a runner. *)
Fixpoint on_page {A} (p : page_prog A) : run_prog A :=
  match p with
  | Done o => Done o
  | Call c k => Call (OnPage c) (fun r => on_page (k r))
  end.

Definition target_url : string :=
  "https://one.google.com/ai-student?g1_landing_page=75&utm_source=antigravity&utm_campaign=argon_limit_reached".

(** [async with async_playwright() as p: body] *)
Definition with_playwright {A} (body : run_prog A) : run_prog A :=
  do PlaywrightStart;;
  try_finally body (do PlaywrightStop).

(** [context = browser.contexts[0]] and the page: the first ([last = false])
    or the last one of the context, or a new one. *)
Definition get_page : run_prog unit :=
  contexts ← do BrowserContexts;
  if contexts =? 0 then raise (Exception "list index out of range")
  else
    pages ← do ContextPages;
    if pages =? 0 then do NewPage else ret ().

(** The four fields of a browser remark. *)
Definition part (parts : list string) (i : nat) : string :=
  Py.strip (default "" (parts !! i)).

Definition account_of_parts (parts : list string) : dict :=
  <["email" := part parts 0]> (<["password" := part parts 1]>
    (<["backup" := part parts 2]> (<["secret" := part parts 3]> ∅))).

Section Runners.

Variable DEFAULT_CARD : dict.

Definition test_bind_card_with_browser (browser_id : string)
    (account_info : option dict) : run_prog (option result) :=
  invoke
    (account_info ←
       (if dict_falsy account_info then
          target_browser ← do (GetBrowserInfo browser_id);
          if dict_falsy target_browser then ret None
          else
            let remark := default "" (default ∅ target_browser !! "remark") in
            let parts := Py.split "----" remark in
            if 4 <=? length parts then ret (Some (account_of_parts parts))
            else ret None
        else ret account_info);
     result ← do (OpenBrowser browser_id);
     if negb (open_success result)
     then return_ (false, "打开浏览器失败: " +:+ open_repr result)
     else
       ws_endpoint ←
         (* result['data']['ws'] *)
         match open_data result with
         | Some (Some ws) => ret ws
         | Some None => raise (Exception "'ws'")
         | None => raise (Exception "'data'")
         end;
       with_playwright
         (try_finally
            (try_with catch_Exception
               (do (ConnectOverCdp ws_endpoint);;
                get_page;;
                do (Goto target_url);;
                '(success, message) ←
                  (r ← on_page (auto_bind_card DEFAULT_CARD None account_info);
                   unpack r);
                return_ (true, message))
               (fun e => return_ (false, exn_msg e)))
            (* finally: the call of closeBrowser is commented out *)
            (ret ()))).

(** [log(msg)]: the callback when there is one, [print] otherwise. *)
Definition log (log_callback : bool) (msg : string) : run_prog unit :=
  if log_callback then do (LogCallback msg) else ret ().

(** Lines 987-995: the record of a successful bind. *)
Definition record_bind (card_info : option dict) (account_info : dict)
    (log_callback : bool) : run_prog unit :=
  do (OpenAppend "已绑卡号.txt");;
  try_finally
    (let card_last4 :=
       if dict_falsy card_info then "N/A"
       else Py.last 4 (default "" (default ∅ card_info !! "number")) in
     now ← do Now;
     do (FileWrite (default "" (account_info !! "email") +:+ "----"
                    +:+ card_last4 +:+ "----" +:+ now
                    +:+ String (ascii_of_nat 10) EmptyString)))
    (do FileClose);;
  log log_callback "已记录到 已绑卡号.txt".

(** Lines 975-985: the page, the navigation and [auto_bind_card]. *)
Definition bind_on_page (card_info : option dict) (account_info : dict)
    (log_callback : bool) : run_prog result :=
  get_page;;
  log log_callback "正在导航到订阅页面...";;
  do (Goto target_url);;
  r ← on_page (auto_bind_card DEFAULT_CARD card_info (Some account_info));
  unpack r.

(** Lines 975-997: the body of the inner [try]. *)
Definition drive_page (card_info : option dict) (account_info : dict)
    (log_callback : bool) : run_prog unit :=
  '(success, message) ← bind_on_page card_info account_info log_callback;
  (if (success : bool)
   then record_bind card_info account_info log_callback
   else ret ());;
  return_ (success, message).

(** Lines 971-1006: the [try] under the [finally] that closes the browser. *)
Definition bind_in_session (card_info : option dict) (account_info : dict)
    (log_callback : bool) (ws_endpoint : string) : run_prog unit :=
  try_with catch_Exception
    (with_playwright
       (do (ConnectOverCdp ws_endpoint);;
        try_finally
          (drive_page card_info account_info log_callback)
          (try_with catch_Exception (do BrowserClose) (fun _ => ret ()))))
    (fun e => return_ (false, "绑卡错误: " +:+ exn_msg e)).

Definition bind_card_sync (browser_id : string) (card_info : option dict)
    (log_callback : bool) (close_after : bool) : run_prog (option result) :=
  invoke
    (browser_info ← do (GetBrowserInfo browser_id);
     if dict_falsy browser_info then return_ (false, "找不到浏览器信息")
     else
       let remark := default "" (default ∅ browser_info !! "remark") in
       let parts := Py.split "----" remark in
       let account_info := account_of_parts parts in
       log log_callback ("账号: " +:+ default "" (account_info !! "email"));;
       log log_callback "正在打开浏览器...";;
       res ← do (OpenBrowser browser_id);
       if negb (open_success res)
       then return_ (false, "无法打开浏览器: " +:+ open_repr res)
       else
         if negb (Py.truthy (default "" (open_ws res))) then
           do (CloseBrowser browser_id);;
           return_ (false, "无法获取 WebSocket 端点")
         else
           let ws_endpoint := default "" (open_ws res) in
           try_finally
             (bind_in_session card_info account_info log_callback ws_endpoint)
             (if close_after then do (CloseBrowser browser_id) else ret ())).

End Runners.

(** * Specification-side definitions *)

(** The digits of an expiry component, as [_normalize_exp_parts] reads them. *)
Definition exp_digits (s : option string) : string :=
  Py.filter Py.isdigit (Py.strip (default "" s)).

(** "Single-digit components are zero-padded to two digits." *)
Definition pad1 (s : string) : string :=
  if String.length s =? 1 then "0" +:+ s else s.

(** "A year of 4 or more digits is truncated to its last 2 digits." *)
Definition trunc_year (y : string) : string :=
  if 4 <=? String.length y then Py.last 2 y else y.

(** The swap clause read literally: the two values change places. *)
Definition swaps_values (month year : option string) : Prop :=
  forall m y : N,
    Py.int (exp_digits month) = Some m -> Py.int (exp_digits year) = Some y ->
    (12 < m)%N -> (1 <= y <= 12)%N ->
    Py.int (_normalize_exp_parts month year).1 = Some y
    /\ Py.int (_normalize_exp_parts month year).2 = Some m.

(** A string that does not begin with whitespace. *)
Definition head_ok (s : string) : Prop :=
  match s with EmptyString => True | String c _ => Py.isspace c = false end.

(** [sep.join(parts)] *)
Fixpoint join (sep : string) (parts : list string) : string :=
  match parts with
  | [] => EmptyString
  | [p] => p
  | p :: ps => p +:+ sep +:+ join sep ps
  end.

(** A string without whitespace. *)
Fixpoint no_space (s : string) : Prop :=
  match s with
  | EmptyString => True
  | String c s' => Py.isspace c = false /\ no_space s'
  end.

(** What [str.split()] returns: non-empty strings without whitespace. *)
Definition token (p : string) : Prop := p <> EmptyString /\ no_space p.

(** [sep] occurs in [line]. *)
Definition occurs (sep line : string) : Prop :=
  exists a b, line = a +:+ sep +:+ b.

(** The whitespace of [str.strip] and [str.split] among U+0000..U+00FF: tab,
    line feed, vertical tab, form feed, carriage return, the separators
    U+001C..U+001F, the space, NEL and the no-break space. *)
Definition blank (c : ascii) : Prop :=
  In (nat_of_ascii c) [9; 10; 11; 12; 13; 28; 29; 30; 31; 32; 133; 160].

Fixpoint all_blank (s : string) : Prop :=
  match s with
  | EmptyString => True
  | String c s' => blank c /\ all_blank s'
  end.

Fixpoint no_blank (s : string) : Prop :=
  match s with
  | EmptyString => True
  | String c s' => ~ blank c /\ no_blank s'
  end.

(** A string that neither begins nor ends with whitespace. *)
Definition clean_ends (p : string) : Prop :=
  (forall c q, p = String c q -> ~ blank c)
  /\ (forall q c, p = q +:+ String c EmptyString -> ~ blank c).

(** "The parts are trimmed": [p] is [s] without the whitespace at its two
    ends. *)
Definition trimmed_of (s p : string) : Prop :=
  exists a b, s = a +:+ p +:+ b /\ all_blank a /\ all_blank b /\ clean_ends p.

(** "Splits on [sep]": [pieces] are what is left of [line] when every
    occurrence of [sep], the leftmost first, is cut out. *)
Fixpoint cut_at (sep : string) (pieces : list string) (line : string) : Prop :=
  match pieces with
  | [] => False
  | p :: ps =>
      match ps with
      | [] => line = p /\ ~ occurs sep p
      | _ :: _ =>
          exists rest,
            line = p +:+ sep +:+ rest
            /\ (forall a b, line = a +:+ sep +:+ b ->
                            String.length p <= String.length a)
            /\ cut_at sep ps rest
      end
  end.

(** The pieces trimmed, those that are nothing but whitespace left out. *)
Inductive kept : list string -> list string -> Prop :=
| kept_nil : kept [] []
| kept_blank s pieces parts :
    all_blank s -> kept pieces parts -> kept (s :: pieces) parts
| kept_part s p pieces parts :
    p <> EmptyString -> trimmed_of s p -> kept pieces parts ->
    kept (s :: pieces) (p :: parts).

(** "Splits on whitespace": the parts are the maximal runs of characters
    that are not whitespace. *)
Inductive ws_split : string -> list string -> Prop :=
| ws_no_token s : all_blank s -> ws_split s []
| ws_token a t rest parts :
    all_blank a -> t <> EmptyString -> no_blank t ->
    (forall c q, rest = String c q -> blank c) ->
    ws_split rest parts ->
    ws_split (a +:+ t +:+ rest) (t :: parts).





(** Every way a program can end satisfies [P], whatever the environment
    answers. *)
Fixpoint ends {call} {resp : call -> Type} {A} (P : outcome A -> Prop)
    (p : prog resp A) : Prop :=
  match p with
  | Done o => P o
  | Call c k => forall r, ends P (k r)
  end.




(** ** Scenarios: concrete pages to run the programs on *)

Definition scope_eqb (a b : scope) : bool :=
  match a, b with
  | Page, Page => true
  | FrameLocator s, FrameLocator t => String.eqb s t
  | InFrame f, InFrame g =>
      (frame_id f =? frame_id g) && String.eqb (frame_url f) (frame_url g)
  | _, _ => false
  end.

Definition pick_eqb (a b : pick) : bool :=
  match a, b with
  | All, All | First, First => true
  | Nth i, Nth j => i =? j
  | _, _ => false
  end.

Definition locator_eqb (a b : locator) : bool :=
  scope_eqb (l_scope a) (l_scope b)
  && String.eqb (l_selector a) (l_selector b)
  && pick_eqb (l_pick a) (l_pick b).

(** A page that answers by what is asked, not by what happened before:
    how many elements a locator matches, which are visible, the frames, the
    attributes, and the calls that raise. *)
Record page_model : Type := PageModel {
  pm_count : locator -> nat;
  pm_visible : locator -> bool;
  pm_frames : list frame;
  pm_attr : locator -> string -> option string;
  pm_raises : call -> option exn
}.

Definition page_answer (m : page_model) (c : call) : exn + resp c :=
  match pm_raises m c with
  | Some e => inl e
  | None =>
      match c return exn + resp c with
      | WaitForSelector _ _ _ => inr (Some 0)
      | Frames => inr (pm_frames m)
      | Count l => inr (pm_count m l)
      | IsVisible l => inr (pm_visible m l)
      | GetAttribute l name => inr (pm_attr m l name)
      | EvaluateHandle _ _ => inr (Some 1)
      | TotpNow _ => inr "123456"
      | HandleRecoveryEmailChallenge _ => inr true
      | DetectManualVerification => inr false
      | PageClick _ | PageFill _ _ | Screenshot _ | HandleFill _ _
      | HandleClick _ _ | Click _ _ | Fill _ _ | MoveToSubscribed _ => inr ()
      end
  end.

Definition page_world (m : page_model) : world resp :=
  fun c _ => page_answer m c.

Definition email_selector : string := attr_eq "input" "type" "email".

(** The e-mail field does not show up: the session is logged in. *)
Definition logged_in (c : call) : option exn :=
  match c with
  | WaitForSelector selector _ _ =>
      if String.eqb selector email_selector
      then Some (Exception "Timeout 5000ms exceeded.")
      else None
  | _ => None
  end.

Definition iframe : scope := FrameLocator tokenized_iframe.

Definition card_frame : frame :=
  Frame 2 "https://payments.google.com/payments/apis-secure/u/0/instrumentmanager".

Definition a_card : dict :=
  <["number" := "4242424242424242"]> (<["exp_month" := "3"]>
    (<["exp_year" := "2026"]> (<["cvv" := "123"]> (<["zip" := "10001"]> ∅)))).

Definition an_account : dict :=
  <["email" := "a@x.com"]> (<["password" := "pw"]>
    (<["backup" := "rec@x.com"]> (<["secret" := "JBSW Y3DP"]> ∅))).

(** A page with a card form of [inputs] fields, a Save button, and a
    subscribe button that shows in the iframe after saving. *)
Definition form_count (inputs : nat) (l : locator) : nat :=
  if locator_eqb l (Locator (InFrame card_frame) "input" All) then inputs
  else if locator_eqb l (Locator (InFrame card_frame) (has_text "button" "Save") First)
  then 1
  else if locator_eqb l (Locator iframe (has_text "button" "Start") First)
  then 1
  else 0.

Definition form_page (inputs : nat) (raises : call -> option exn) : page_model :=
  PageModel (form_count inputs) (fun _ => true) [card_frame]
            (fun _ _ => Some "text") raises.



(** A call that was answered with a value, and one that raised. *)
Definition ok (c : call) (v : resp c) : event resp := existT c (inr v).
Definition failed (c : call) (e : exn) : event resp := existT c (inl e).

(** What the loop over the inputs from index [i] on leaves in the trace when
    it looks for the field of the postal code among the [input_count] inputs
    of the frame: the inputs that are neither of type [tel] nor the last one
    are passed over; the first one that is gets the click and the postal
    code; an [Exception] ends the search. *)
Inductive zip_trace (card_form_frame : frame) (input_count : nat)
    (zip_code : string) : nat -> list (event resp) -> Prop :=
| zip_no_input i :
    input_count <= i -> zip_trace card_form_frame input_count zip_code i []
| zip_pass i input_type rest :
    i < input_count -> input_type <> Some "tel" -> i <> input_count - 1 ->
    zip_trace card_form_frame input_count zip_code (S i) rest ->
    zip_trace card_form_frame input_count zip_code i
      (ok (GetAttribute (Locator (InFrame card_form_frame) "input" (Nth i)) "type")
          input_type :: rest)
| zip_filled i input_type :
    i < input_count -> input_type = Some "tel" \/ i = input_count - 1 ->
    zip_trace card_form_frame input_count zip_code i
      [ok (GetAttribute (Locator (InFrame card_form_frame) "input" (Nth i)) "type")
          input_type;
       ok (Click (Locator (InFrame card_form_frame) "input" (Nth i)) false) ();
       ok (Fill (Locator (InFrame card_form_frame) "input" (Nth i)) zip_code) ()]
| zip_type_raises i msg :
    i < input_count ->
    zip_trace card_form_frame input_count zip_code i
      [failed (GetAttribute (Locator (InFrame card_form_frame) "input" (Nth i)) "type")
              (Exception msg)]
| zip_click_raises i input_type msg :
    i < input_count -> input_type = Some "tel" \/ i = input_count - 1 ->
    zip_trace card_form_frame input_count zip_code i
      [ok (GetAttribute (Locator (InFrame card_form_frame) "input" (Nth i)) "type")
          input_type;
       failed (Click (Locator (InFrame card_form_frame) "input" (Nth i)) false)
              (Exception msg)]
| zip_fill_raises i input_type msg :
    i < input_count -> input_type = Some "tel" \/ i = input_count - 1 ->
    zip_trace card_form_frame input_count zip_code i
      [ok (GetAttribute (Locator (InFrame card_form_frame) "input" (Nth i)) "type")
          input_type;
       ok (Click (Locator (InFrame card_form_frame) "input" (Nth i)) false) ();
       failed (Fill (Locator (InFrame card_form_frame) "input" (Nth i)) zip_code)
              (Exception msg)].

(** What a run filled into the page: the locators and the values. *)
Definition fills (tr : list (event resp)) : list (locator * string) :=
  omap (fun ev : event resp =>
          match projT1 ev with Fill l value => Some (l, value) | _ => None end)
       tr.

(** A card whose month has three digits, and a card without a number. *)
Definition a_card_of_three_digit_month : dict :=
  <["exp_month" := "123"]> (<["exp_year" := "26"]> a_card).

Definition a_card_without_number : dict := delete "number" a_card.

(** The run has found the subscribe button of an account that has a card
    already and has clicked it: it stands, with trace [tr], before the scan
    for the "Subscribed" marker. *)
Definition at_existing_check (w : world resp) (account_info : option dict)
    (tr0 tr : list (event resp)) : Prop :=
  exists tr1 subscribe_button_early tr2,
    run w (before_precheck account_info) tr0 = (Normal (), tr1)
    /\ run w (find_existing_subscribe iframe) tr1
       = (Normal (Some subscribe_button_early), tr2)
    /\ run w (click_existing_subscribe subscribe_button_early) tr2
       = (Normal (), tr).

(** The run has filled and saved the card form and has clicked the subscribe
    button: it stands, with trace [tr], before the last scan for the
    "Subscribed" marker. *)
Definition at_final_check (w : world resp) (card_info : dict)
    (account_info : option dict) (tr0 tr : list (event resp)) : Prop :=
  exists card_form_frame tr1 tr2 tr3 subscribe_button tr4,
    run w (to_card_form account_info) tr0 = (Normal card_form_frame, tr1)
    /\ run w (stage_card_entry card_info card_form_frame) tr1 = (Normal (), tr2)
    /\ run w (stage_save card_form_frame) tr2 = (Normal (), tr3)
    /\ w (Screenshot "step7_before_subscribe.png") tr3 = inr ()
    /\ run w find_subscribe_button (tr3 ++ [ok (Screenshot "step7_before_subscribe.png") ()])
       = (Normal (Some subscribe_button), tr4)
    /\ run w (click_subscribe subscribe_button) tr4 = (Normal (), tr).

(** The calls of [AccountManager.move_to_subscribed] in a trace. *)
Definition store_updates (tr : list (event resp)) : list string :=
  omap (fun ev : event resp =>
          match projT1 ev with MoveToSubscribed line => Some line | _ => None end)
       tr.

(** What the store update adds to the trace at [tr]: one call for an account
    with an e-mail address, nothing otherwise. *)
Definition store_event (w : world resp) (account_info : option dict)
    (tr : list (event resp)) : list (event resp) :=
  if has_email account_info
  then [existT (MoveToSubscribed (account_line account_info))
               (w (MoveToSubscribed (account_line account_info)) tr)]
  else [].

(** The store does not let an exception through that is not an
    [Exception]. *)
Definition store_tame (w : world resp) (account_info : option dict)
    (tr : list (event resp)) : Prop :=
  forall m, w (MoveToSubscribed (account_line account_info)) tr
            <> inl (BaseException m).

(** An account with a card on file: the subscribe button shows in the iframe
    and, when [confirmed], so does the "Subscribed" marker after the click. *)
Definition bound_count (confirmed : bool) (l : locator) : nat :=
  if locator_eqb l (Locator iframe (has_text "span.UywwFc-vQzf8d" "Subscribe") First)
  then 1
  else if confirmed && locator_eqb l (Locator iframe (text_is "Subscribed") First)
  then 1
  else 0.

Definition bound_page (confirmed : bool) : page_model :=
  PageModel (bound_count confirmed) (fun _ => true) [] (fun _ _ => None) logged_in.










(** The run up to the scan for the "Subscribed" marker of the pre-check, and
    up to the last scan, as programs: they give the traces at which the
    scenarios stand. *)
Definition to_existing_check (account_info : option dict) : page_prog unit :=
  before_precheck account_info;;
  subscribe_button_early ← find_existing_subscribe iframe;
  match subscribe_button_early with
  | Some subscribe_button_early => click_existing_subscribe subscribe_button_early
  | None => ret ()
  end.

Definition to_final_check (card_info : dict) (account_info : option dict)
  : page_prog unit :=
  card_form_frame ← to_card_form account_info;
  stage_card_entry card_info card_form_frame;;
  stage_save card_form_frame;;
  await (Screenshot "step7_before_subscribe.png");;
  subscribe_button ← find_subscribe_button;
  match subscribe_button with
  | Some subscribe_button => click_subscribe subscribe_button
  | None => ret ()
  end.

(** A card form of five inputs, the fifth of type [tel]. *)
Definition five_inputs_attr (l : locator) (name : string) : option string :=
  if locator_eqb l (Locator (InFrame card_frame) "input" (Nth 4)) && String.eqb name "type"
  then Some "tel" else Some "text".

Definition five_inputs_page : page_model :=
  PageModel (form_count 5) (fun _ => true) [card_frame] five_inputs_attr logged_in.

(** Every call a program can make satisfies [P], whatever the environment
    answers. *)
Fixpoint calls {call} {resp : call -> Type} {A} (P : call -> Prop)
    (p : prog resp A) : Prop :=
  match p with
  | Done _ => True
  | Call c k => P c /\ forall r, calls P (k r)
  end.

Definition is_open (c : run_call) : bool :=
  match c with OpenBrowser _ => true | _ => false end.

Definition is_close (c : run_call) : bool :=
  match c with CloseBrowser _ => true | _ => false end.

Definition is_write (c : run_call) : bool :=
  match c with FileWrite _ => true | _ => false end.

(** A call of [openBrowser] with its answer: the browser asked for and what
    came back, [None] when the call raised. *)
Definition opened (ev : event run_resp) : option (string * option open_result) :=
  match ev with
  | existT c r =>
      match c return exn + run_resp c -> option (string * option open_result) with
      | OpenBrowser browser_id =>
          fun r => Some (browser_id,
                         match r with inr res => Some res | inl _ => None end)
      | _ => fun _ => None
      end r
  end.

(** The calls of [openBrowser] in a trace, in their order. *)
Definition sessions (tr : list (event run_resp))
  : list (string * option open_result) :=
  omap opened tr.

(** The calls of [closeBrowser] in a trace: the browsers closed, in their
    order. *)
Definition closed (tr : list (event run_resp)) : list string :=
  omap (fun ev : event run_resp =>
          match projT1 ev with
          | CloseBrowser browser_id => Some browser_id
          | _ => None
          end) tr.

(** What was written to the log file. *)
Definition writes (tr : list (event run_resp)) : list string :=
  omap (fun ev : event run_resp =>
          match projT1 ev with FileWrite text => Some text | _ => None end) tr.

(** The answer of [openBrowser] carries no WebSocket endpoint. *)
Definition no_ws (res : open_result) : bool :=
  match open_data res with
  | Some (Some ws) => match ws with EmptyString => true | _ => false end
  | _ => true
  end.

(** The record of a bind: [email----last4----timestamp] and a newline, with
    [N/A] for the digits when the caller gave no card. *)
Definition card_last4 (card_info : option dict) : string :=
  if dict_falsy card_info then "N/A"
  else Py.last 4 (default "" (default ∅ card_info !! "number")).

Definition bind_record (email : string) (card_info : option dict)
    (timestamp : string) : string :=
  email +:+ "----" +:+ card_last4 card_info +:+ "----" +:+ timestamp
  +:+ String (ascii_of_nat 10) EmptyString.

(** A browser and the page in it, for the runners. *)
Record run_model : Type := RunModel {
  rm_page : page_model;
  rm_info : option dict;
  rm_open : open_result;
  rm_raises : run_call -> option exn
}.

Definition run_answer (m : run_model) (c : run_call) : exn + run_resp c :=
  match rm_raises m c with
  | Some e => inl e
  | None =>
      match c return exn + run_resp c with
      | OnPage c => page_answer (rm_page m) c
      | GetBrowserInfo _ => inr (rm_info m)
      | OpenBrowser _ => inr (rm_open m)
      | BrowserContexts | ContextPages => inr 1
      | Now => inr "2025-01-01 12:00:00"
      | CloseBrowser _ | PlaywrightStart | PlaywrightStop | ConnectOverCdp _
      | NewPage | Goto _ | BrowserClose | LogCallback _ | OpenAppend _
      | FileWrite _ | FileClose => inr ()
      end
  end.

Definition run_world (m : run_model) : world run_resp :=
  fun c _ => run_answer m c.

Definition a_browser : option dict :=
  Some (<["remark" := "a@x.com----pw----rec@x.com----JBSW Y3DP"]> ∅).

Definition a_session : open_result :=
  OpenResult true (Some (Some "ws://127.0.0.1:9222/devtools/browser/1"))
             "{'success': True, 'data': {'ws': 'ws://127.0.0.1:9222/devtools/browser/1'}}".

(** The browser opens, the connection to it fails. *)
Definition connect_fails (c : run_call) : option exn :=
  match c with
  | ConnectOverCdp _ => Some (Exception "connect ECONNREFUSED 127.0.0.1:9222")
  | _ => None
  end.

Definition unreachable_browser : run_model :=
  RunModel (form_page 3 logged_in) a_browser a_session connect_fails.

(** The browser opens, and the answer of [openBrowser] has no ['data']. *)
Definition a_session_without_data : open_result :=
  OpenResult true None "{'success': True}".

Definition browser_without_data : run_model :=
  RunModel (form_page 3 logged_in) a_browser a_session_without_data
           (fun _ => None).

(** The browser opens and the card form is filled and saved. *)
Definition working_browser : run_model :=
  RunModel (form_page 3 logged_in) a_browser a_session (fun _ => None).

(** A call that neither opens nor closes a browser session. *)
Definition session_free (c : run_call) : Prop :=
  is_open c = false /\ is_close c = false.

(** A call that does not write to the log file. *)
Definition write_free (c : run_call) : Prop := is_write c = false.

(** A block of statements that does not execute [return]. *)
Definition no_return {A} (o : outcome A) : Prop :=
  match o with Return _ => False | _ => True end.

(** What [bind_card_sync] owes the session of the browser [browser_id].  It
    calls [openBrowser] at most once, for that browser.  When the call
    answered a success and the caller asked for the browser to be closed (or
    the answer has no WebSocket endpoint), the last call of the run is
    [closeBrowser] for the same browser, it is the only one, and the session
    was opened before it.  Otherwise (the call raised or answered a failure,
    or the caller asked for the browser to stay open) [closeBrowser] is not
    called. *)
Definition released (browser_id : string) (close_after : bool)
    (tr : list (event run_resp)) : Prop :=
  match sessions tr with
  | [] => closed tr = []
  | [(opened_id, answer)] =>
      opened_id = browser_id
      /\ match answer with
         | Some res =>
             if open_success res && (close_after || no_ws res)
             then closed tr = [browser_id]
                  /\ exists before r,
                       tr = before
                            ++ [existT (CloseBrowser browser_id) r : event run_resp]
                       /\ closed before = []
                       /\ sessions before = [(browser_id, Some res)]
             else closed tr = []
         | None => closed tr = []
         end
  | _ => False
  end.

(** The record of a bind as it goes into the trace: the file is opened for
    appending, the time is read, the line is written, the file is closed. *)
Definition record_events (email : string) (card_info : option dict)
    (timestamp : string) : list (event run_resp) :=
  [ existT (OpenAppend "已绑卡号.txt") (inr ());
    existT Now (inr timestamp);
    existT (FileWrite (bind_record email card_info timestamp)) (inr ());
    existT FileClose (inr ()) ].

(** A stretch of a run in which the record was made, and nothing else was
    written. *)
Definition recorded (email : string) (card_info : option dict)
    (tr tr' : list (event run_resp)) : Prop :=
  exists timestamp before after,
    tr' = tr ++ before ++ record_events email card_info timestamp ++ after
    /\ writes before = [] /\ writes after = [].

(** What a run filled into the page: the locators and the values. *)
Definition page_fills (tr : list (event run_resp)) : list (locator * string) :=
  omap (fun ev : event run_resp =>
          match projT1 ev with
          | OnPage (Fill l value) => Some (l, value)
          | _ => None
          end) tr.

Definition newline : string := String (ascii_of_nat 10) EmptyString.

(** A call on the inputs of the card form: the card-entry stage is the only
    one to count all the matches of a locator or to pick one by its index;
    everywhere else a locator is narrowed by [.first]. *)
Definition on_inputs (c : call) : bool :=
  match c with
  | Count l | IsVisible l | Click l _ | Fill l _ | GetAttribute l _
  | EvaluateHandle l _ =>
      match l_pick l with First => false | _ => true end
  | _ => false
  end.

(** The number of such calls in a trace. *)
Definition input_calls (tr : list (event resp)) : nat :=
  length (List.filter (fun ev => on_inputs (projT1 ev)) tr).

(** * Properties *)

(** ** Python strings *)

Lemma app_cons (c : ascii) (s t : string) :
  String c s +:+ t = String c (s +:+ t).
Proof. reflexivity. Qed.

Lemma app_nil (t : string) : EmptyString +:+ t = t.
Proof. reflexivity. Qed.

Lemma app_assoc_string (s t u : string) : (s +:+ t) +:+ u = s +:+ (t +:+ u).
Proof.
  induction s as [|c s IH]; [reflexivity|].
  rewrite !app_cons. now rewrite IH.
Qed.

Lemma length_app_string (s t : string) :
  String.length (s +:+ t) = String.length s + String.length t.
Proof.
  induction s as [|c s IH]; [reflexivity|].
  rewrite app_cons. simpl. now rewrite IH.
Qed.

Lemma drop_app_length (s t : string) : Py.drop (String.length s) (s +:+ t) = t.
Proof.
  induction s as [|c s IH]; [now destruct t|].
  rewrite app_cons. exact IH.
Qed.

Lemma take_drop (n : nat) (s : string) : Py.take n s +:+ Py.drop n s = s.
Proof.
  revert s; induction n as [|n IH]; intros [|c s]; try reflexivity.
  simpl. rewrite app_cons. now rewrite IH.
Qed.

Lemma length_drop (n : nat) (s : string) :
  String.length (Py.drop n s) = String.length s - n.
Proof.
  revert s; induction n as [|n IH]; intros [|c s]; simpl; try reflexivity.
  apply IH.
Qed.

Lemma length_last (n : nat) (s : string) :
  String.length (Py.last n s) = Nat.min n (String.length s).
Proof. unfold Py.last. rewrite length_drop. lia. Qed.

Lemma last_app (s t : string) : Py.last (String.length t) (s +:+ t) = t.
Proof.
  unfold Py.last. rewrite length_app_string.
  replace (String.length s + String.length t - String.length t)
    with (String.length s) by lia.
  apply drop_app_length.
Qed.

Lemma last_short (n : nat) (s : string) :
  String.length s <= n -> Py.last n s = s.
Proof.
  intros H. unfold Py.last.
  replace (String.length s - n) with 0 by lia. now destruct s.
Qed.

(** A string of at least two characters ends in its last two. *)
Lemma last2_split (s : string) :
  2 <= String.length s ->
  exists p a b, s = p +:+ String a (String b EmptyString)
                /\ Py.last 2 s = String a (String b EmptyString).
Proof.
  intros H.
  assert (Hl : String.length (Py.last 2 s) = 2) by (rewrite length_last; lia).
  destruct (Py.last 2 s) as [|a [|b [|c t]]] eqn:E; simpl in Hl; try lia.
  exists (Py.take (String.length s - 2) s), a, b. split; [|reflexivity].
  rewrite <- E. unfold Py.last. symmetry. apply take_drop.
Qed.

(** *** [int] *)

Lemma digit_value_lt (c : ascii) : Py.isdecimal c = true -> (Py.digit_value c < 10)%N.
Proof.
  unfold Py.isdecimal, Py.digit_value. intros H.
  apply andb_prop in H as [H1 H2].
  apply Nat.leb_le in H1, H2. lia.
Qed.

Lemma int_go_app (acc : N) (s t : string) :
  Py.int_go acc (s +:+ t) =
  match Py.int_go acc s with Some v => Py.int_go v t | None => None end.
Proof.
  revert acc; induction s as [|c s IH]; intros acc; [reflexivity|].
  rewrite app_cons. simpl.
  destruct (Py.isdecimal c); [apply IH | reflexivity].
Qed.

Lemma int_go_two (acc : N) (a b : ascii) v :
  Py.int_go acc (String a (String b EmptyString)) = Some v ->
  v = (100 * acc + (10 * Py.digit_value a + Py.digit_value b))%N
  /\ (10 * Py.digit_value a + Py.digit_value b < 100)%N.
Proof.
  simpl. destruct (Py.isdecimal a) eqn:Ha; [|discriminate].
  destruct (Py.isdecimal b) eqn:Hb; [|discriminate].
  intros [= <-]. apply digit_value_lt in Ha, Hb. lia.
Qed.

Lemma int_go_shift (acc : N) (a b : ascii) v :
  Py.int_go acc (String a (String b EmptyString)) = Some v ->
  Py.int_go 0 (String a (String b EmptyString)) = Some (v mod 100)%N.
Proof.
  intros H. pose proof (int_go_two _ _ _ _ H) as [-> Hlt].
  simpl in *. destruct (Py.isdecimal a); [|discriminate].
  destruct (Py.isdecimal b); [|discriminate]. f_equal.
  set (x := (10 * Py.digit_value a + Py.digit_value b)%N) in *.
  replace (100 * acc + x)%N with (x + acc * 100)%N by lia.
  rewrite N.Div0.mod_add, N.mod_small by lia. lia.
Qed.

Lemma int_nonempty (s : string) v : Py.int s = Some v -> Py.truthy s = true.
Proof. destruct s; [discriminate | reflexivity]. Qed.

Lemma int_go_of_int (s : string) v : Py.int s = Some v -> Py.int_go 0 s = Some v.
Proof.
  destruct s as [|c s]; [discriminate|]. unfold Py.int.
  now destruct (Py.int_max_str_digits <? String.length (String c s)).
Qed.

Lemma int_of_int_go (s : string) :
  Py.truthy s = true -> String.length s <= Py.int_max_str_digits ->
  Py.int s = Py.int_go 0 s.
Proof.
  destruct s as [|c s]; [discriminate|]. intros _ Hl. unfold Py.int.
  apply Nat.ltb_ge in Hl. now rewrite Hl.
Qed.

(** The last two digits of a number written in decimal are its value modulo
    100. *)
Lemma int_go_last2 (s : string) (v : N) :
  Py.int_go 0 s = Some v -> 2 <= String.length s ->
  Py.int (Py.last 2 s) = Some (v mod 100)%N.
Proof.
  intros Hv Hlen.
  destruct (last2_split s Hlen) as (p & a & b & Hs & ->).
  rewrite Hs, int_go_app in Hv.
  destruct (Py.int_go 0 p) as [v1|] eqn:Hp; [|discriminate].
  rewrite int_of_int_go; [|reflexivity|unfold Py.int_max_str_digits; simpl; lia].
  eapply int_go_shift; eassumption.
Qed.

Lemma int_last2 (s : string) (v : N) :
  Py.int s = Some v -> 2 <= String.length s ->
  Py.int (Py.last 2 s) = Some (v mod 100)%N.
Proof. intros H. apply int_go_last2. now apply int_go_of_int. Qed.

(** *** [str] *)

Lemma str_go_acc (fuel : nat) (n : N) (acc : string) :
  Py.str_go fuel n acc = Py.str_go fuel n EmptyString +:+ acc.
Proof.
  revert n acc; induction fuel as [|fuel IH]; intros n acc; [reflexivity|].
  simpl. destruct (n <? 10)%N; [reflexivity|].
  rewrite IH, (IH _ (String _ EmptyString)).
  now rewrite app_assoc_string.
Qed.

Lemma digit_value_char (d : N) :
  (d < 10)%N ->
  Py.isdecimal (Py.digit_char d) = true /\ Py.digit_value (Py.digit_char d) = d.
Proof.
  intros H. unfold Py.isdecimal, Py.digit_value, Py.digit_char.
  rewrite nat_ascii_embedding by lia. split.
  - apply andb_true_intro; split; apply Nat.leb_le; lia.
  - lia.
Qed.

Lemma int_go_str_go (fuel : nat) (n : N) :
  (n < 2 ^ N.of_nat fuel)%N ->
  Py.int_go 0 (Py.str_go fuel n EmptyString) = Some n.
Proof.
  revert n; induction fuel as [|fuel IH]; intros n Hn.
  - change (2 ^ N.of_nat 0)%N with 1%N in Hn.
    assert (n = 0%N) by lia. now subst.
  - cbn [Py.str_go]. pose proof (N.mod_upper_bound n 10 ltac:(lia)) as Hd.
    destruct (digit_value_char _ Hd) as [Hdec Hval].
    destruct (n <? 10)%N eqn:Hlt.
    + apply N.ltb_lt in Hlt. cbn [Py.int_go]. rewrite Hdec, Hval.
      rewrite N.mod_small by lia. f_equal.
    + apply N.ltb_ge in Hlt.
      rewrite str_go_acc, int_go_app, IH.
      * cbn [Py.int_go]. rewrite Hdec, Hval. f_equal.
        pose proof (N.div_mod n 10 ltac:(lia)). lia.
      * rewrite Nat2N.inj_succ, N.pow_succ_r' in Hn.
        apply N.Div0.div_lt_upper_bound. lia.
Qed.

Lemma str_nonempty (n : N) : Py.truthy (Py.str n) = true.
Proof.
  unfold Py.str. cbn [Py.str_go]. destruct (n <? 10)%N; [reflexivity|].
  rewrite str_go_acc. now destruct (Py.str_go _ _ _).
Qed.

(** [int(str(n)) == n], as far as the digits go. *)
Lemma int_go_str (n : N) : Py.int_go 0 (Py.str n) = Some n.
Proof.
  unfold Py.str. apply int_go_str_go.
  destruct (N.eq_dec n 0%N) as [->|Hn]; [reflexivity|].
  rewrite Nat2N.inj_succ, N2Nat.id.
  apply N.log2_spec. lia.
Qed.

Lemma str_go_step (fuel : nat) (n : N) (acc : string) :
  Py.str_go (S fuel) n acc =
  if (n <? 10)%N then String (Py.digit_char (n mod 10)) acc
  else Py.str_go fuel (n / 10) (String (Py.digit_char (n mod 10)) acc).
Proof. reflexivity. Qed.

Lemma length_str_ge2 (n : N) : (10 <= n)%N -> 2 <= String.length (Py.str n).
Proof.
  intros Hn. unfold Py.str.
  assert (Hl : (3 <= N.log2 n)%N).
  { change 3%N with (N.log2 8). apply N.log2_le_mono. lia. }
  destruct (N.to_nat (N.log2 n)) as [|fuel] eqn:Hf; [lia|].
  rewrite str_go_step.
  replace (n <? 10)%N with false by (symmetry; apply N.ltb_ge; lia).
  rewrite str_go_acc, length_app_string, str_go_step.
  cbn [String.length].
  destruct (n / 10 <? 10)%N; cbn [String.length]; [lia|].
  rewrite str_go_acc, length_app_string. cbn [String.length]. lia.
Qed.

(** The last two characters of [str(n)] read as [n mod 100]. *)
Lemma int_last2_str (n : N) :
  (10 <= n)%N ->
  Py.int (Py.last 2 (Py.str n)) = Some (n mod 100)%N
  /\ String.length (Py.last 2 (Py.str n)) = 2.
Proof.
  intros Hn. pose proof (length_str_ge2 n Hn). split.
  - apply int_go_last2; [apply int_go_str | assumption].
  - rewrite length_last. lia.
Qed.

(** ** Expiry normalisation *)

Lemma int_zero_cons (c : ascii) :
  Py.int (String "0" (String c EmptyString)) = Py.int (String c EmptyString).
Proof. reflexivity. Qed.

Lemma pad1_cases (s : string) :
  (String.length s = 1 /\ pad1 s = "0" +:+ s /\ String.length (pad1 s) = 2)
  \/ (String.length s <> 1 /\ pad1 s = s).
Proof.
  unfold pad1. destruct (String.length s =? 1) eqn:E.
  - apply Nat.eqb_eq in E. left. repeat split; [assumption|].
    rewrite length_app_string, E. reflexivity.
  - apply Nat.eqb_neq in E. now right.
Qed.

Lemma int_pad1 (s : string) : Py.int (pad1 s) = Py.int s.
Proof.
  destruct (pad1_cases s) as [(Hl & -> & _) | (_ & ->)]; [|reflexivity].
  destruct s as [|c [|d s]]; try discriminate. apply int_zero_cons.
Qed.

Lemma truthy_pad1 (s : string) : Py.truthy (pad1 s) = Py.truthy s.
Proof.
  destruct (pad1_cases s) as [(Hl & -> & _) | (_ & ->)]; [|reflexivity].
  now destruct s.
Qed.

Lemma truthy_length (s : string) : Py.truthy s = true <-> 1 <= String.length s.
Proof. destruct s; simpl; split; intros; try lia; try discriminate; reflexivity. Qed.

Lemma trunc_year_cases (y : string) :
  (4 <= String.length y /\ trunc_year y = Py.last 2 y
   /\ String.length (trunc_year y) = 2)
  \/ (String.length y < 4 /\ trunc_year y = y).
Proof.
  unfold trunc_year. destruct (4 <=? String.length y) eqn:E.
  - apply Nat.leb_le in E. left. repeat split; [assumption|].
    rewrite length_last. lia.
  - apply Nat.leb_gt in E. now right.
Qed.

Lemma truthy_trunc_year (y : string) : Py.truthy (trunc_year y) = Py.truthy y.
Proof.
  destruct (trunc_year_cases y) as [(Hl & _ & Hl2) | (_ & ->)]; [|reflexivity].
  transitivity true; [|symmetry]; apply truthy_length; lia.
Qed.

Lemma int_trunc_year (y : string) (v : N) :
  Py.int y = Some v ->
  Py.int (trunc_year y)
  = Some (if 4 <=? String.length y then (v mod 100)%N else v).
Proof.
  intros Hv. unfold trunc_year. destruct (4 <=? String.length y) eqn:E.
  - apply Nat.leb_le in E. apply int_last2; [assumption | lia].
  - assumption.
Qed.

Lemma decimal_not_sign (c : ascii) :
  Py.isdecimal c = true -> (Ascii.eqb c "+" || Ascii.eqb c "-")%bool = false.
Proof.
  intros H. apply orb_false_intro; apply Ascii.eqb_neq; intros ->; discriminate.
Qed.

Lemma zfill2_id (s : string) (v : N) :
  Py.int s = Some v -> 2 <= String.length s -> Py.zfill 2 s = s.
Proof.
  intros Hv Hl. unfold Py.zfill.
  replace (2 - String.length s) with 0 by lia.
  destruct s as [|c s]; [reflexivity|].
  apply int_go_of_int in Hv. cbn [Py.int_go] in Hv.
  destruct (Py.isdecimal c) eqn:Hc; [|discriminate].
  now rewrite (decimal_not_sign _ Hc).
Qed.

(** The function, in terms of the padded month and the truncated and padded
    year: they come back as they are, or swapped with the month cut to the
    last two digits of its value. *)
Lemma normalize_cases (month year : option string) :
  let mm := pad1 (exp_digits month) in
  let yy := pad1 (trunc_year (exp_digits year)) in
  (_normalize_exp_parts month year = (mm, yy)
   /\ ~ (exists m y, Py.int mm = Some m /\ Py.int yy = Some y
                     /\ (12 < m)%N /\ (1 <= y <= 12)%N))
  \/ (exists m y, Py.int mm = Some m /\ Py.int yy = Some y
                  /\ (12 < m)%N /\ (1 <= y <= 12)%N
                  /\ _normalize_exp_parts month year = (yy, Py.last 2 (Py.str m))).
Proof.
  intros mm yy. unfold _normalize_exp_parts.
  fold (exp_digits month) (exp_digits year).
  fold (trunc_year (exp_digits year)).
  fold (pad1 (exp_digits month)) (pad1 (trunc_year (exp_digits year))).
  fold mm yy.
  destruct (Py.truthy mm) eqn:Hm.
  - destruct (Py.int mm) as [m|] eqn:Hmi.
    + destruct (Py.truthy yy) eqn:Hy.
      * destruct (Py.int yy) as [y|] eqn:Hyi.
        -- destruct ((12 <? m)%N && (1 <=? y)%N && (y <=? 12)%N) eqn:C.
           ++ right. apply andb_prop in C as [C C3]. apply andb_prop in C as [C1 C2].
              apply N.ltb_lt in C1. apply N.leb_le in C2, C3.
              exists m, y. repeat split; try assumption.
              f_equal. eapply zfill2_id; [eassumption|].
              subst yy. destruct (pad1_cases (trunc_year (exp_digits year)))
                as [(_ & _ & ->) | (Hn & E)]; [lia|].
              rewrite E in *. apply truthy_length in Hy. lia.
           ++ left. split; [reflexivity|]. intros (m' & y' & [= <-] & [= <-] & H1 & H2 & H3).
              apply andb_false_iff in C as [C|C];
                [apply andb_false_iff in C as [C|C]|].
              ** apply N.ltb_ge in C. lia.
              ** apply N.leb_gt in C. lia.
              ** apply N.leb_gt in C. lia.
        -- left. split; [reflexivity|]. intros (m' & y' & _ & [=] & _).
      * left. split.
        -- now destruct ((12 <? m)%N).
        -- intros (m' & y' & _ & Hy' & _). apply int_nonempty in Hy'. congruence.
    + left. split; [reflexivity|]. intros (m' & y' & [=] & _).
  - left. split.
    + destruct (if Py.truthy yy then Py.int yy else Some 0%N); reflexivity.
    + intros (m' & y' & Hm' & _). apply int_nonempty in Hm'. congruence.
Qed.

Lemma int_digits_pad1 (s : string) (v : N) :
  Py.int s = Some v -> Py.int (pad1 s) = Some v.
Proof. intros H. now rewrite int_pad1. Qed.

Lemma int_year_small (y0 : string) (y : N) :
  Py.int y0 = Some y -> (y <= 12)%N ->
  Py.int (pad1 (trunc_year y0)) = Some y.
Proof.
  intros Hy Hle. rewrite int_pad1, (int_trunc_year _ _ Hy).
  destruct (4 <=? String.length y0); [|reflexivity].
  now rewrite N.mod_small by lia.
Qed.

Lemma length_pad1_short (s : string) :
  1 <= String.length s <= 2 -> String.length (pad1 s) = 2.
Proof.
  intros H. destruct (pad1_cases s) as [(_ & _ & E) | (Hn & E)];
    [exact E | rewrite E; lia].
Qed.

Lemma length_pad1_trunc (s : string) :
  1 <= String.length s <= 2 \/ 4 <= String.length s ->
  String.length (pad1 (trunc_year s)) = 2.
Proof.
  intros H. destruct (trunc_year_cases s) as [(_ & _ & E) | (Hlt & E)].
  - destruct (pad1_cases (trunc_year s)) as [(_ & _ & E') | (_ & E')];
      [exact E' | now rewrite E'].
  - rewrite E. apply length_pad1_short. lia.
Qed.

(** With a month of one or two digits and a year of one, two, four or more
    digits, both components of the result have two characters. *)
Lemma normalize_lengths (month year : option string) :
  1 <= String.length (exp_digits month) <= 2 ->
  1 <= String.length (exp_digits year) <= 2
  \/ 4 <= String.length (exp_digits year) ->
  String.length (_normalize_exp_parts month year).1 = 2
  /\ String.length (_normalize_exp_parts month year).2 = 2.
Proof.
  intros Hml Hyl.
  pose proof (length_pad1_short _ Hml) as Hm2.
  pose proof (length_pad1_trunc _ Hyl) as Hy2.
  destruct (normalize_cases month year)
    as [[-> _] | (m1 & y1 & _ & _ & Hgt & _ & ->)]; simpl.
  - now split.
  - split; [exact Hy2|]. apply int_last2_str. lia.
Qed.

(** C1 (amended): for every pair of inputs, let [month'] be the digits of
    the month, zero-padded to two when there is a single digit, and [year']
    the digits of the year, cut to the last two when there are four or more
    and zero-padded to two when there is a single digit.  If [month'] parses
    to a value above 12 and [year'] to a value in 1..12, the result is
    [year'] followed by the last two digits of the month's value (two
    characters, which read as the value modulo 100: the value itself below
    100); in every other case the result is [(month', year')], in the order
    given.  The cases of the claim are among these: digits of the month that
    parse above 12 with digits of the year that parse into 1..12 are swapped,
    a month that parses into 1..12 keeps the order; a month of one or two
    digits with a year of one, two, four or more digits gives two components
    of two characters.  The examples hold. *)
Theorem normalize_exp_parts_spec (month year : option string) :
  let month' := pad1 (exp_digits month) in
  let year' := pad1 (trunc_year (exp_digits year)) in
  (forall m y : N,
      Py.int month' = Some m -> Py.int year' = Some y ->
      (12 < m)%N -> (1 <= y <= 12)%N ->
      _normalize_exp_parts month year = (year', Py.last 2 (Py.str m))
      /\ String.length (Py.last 2 (Py.str m)) = 2
      /\ Py.int (Py.last 2 (Py.str m)) = Some (m mod 100)%N)
  /\ (~ (exists m y : N, Py.int month' = Some m /\ Py.int year' = Some y
                         /\ (12 < m)%N /\ (1 <= y <= 12)%N) ->
      _normalize_exp_parts month year = (month', year'))
  /\ (forall m y : N,
      Py.int (exp_digits month) = Some m -> Py.int (exp_digits year) = Some y ->
      (12 < m)%N -> (1 <= y <= 12)%N ->
      Py.int month' = Some m /\ Py.int year' = Some y
      /\ _normalize_exp_parts month year = (year', Py.last 2 (Py.str m)))
  /\ (forall m : N,
      Py.int (exp_digits month) = Some m -> (1 <= m <= 12)%N ->
      Py.int month' = Some m
      /\ _normalize_exp_parts month year = (month', year'))
  /\ (1 <= String.length (exp_digits month) <= 2 ->
      1 <= String.length (exp_digits year) <= 2
      \/ 4 <= String.length (exp_digits year) ->
      String.length (_normalize_exp_parts month year).1 = 2
      /\ String.length (_normalize_exp_parts month year).2 = 2)
  /\ _normalize_exp_parts (Some "25") (Some "03") = ("03", "25")
  /\ _normalize_exp_parts (Some "03") (Some "25") = ("03", "25")
  /\ _normalize_exp_parts (Some "3") (Some "2026") = ("03", "26")
  /\ _normalize_exp_parts (Some "13") (Some "25") = ("13", "25")
  /\ _normalize_exp_parts (Some "0") (Some "5") = ("00", "05")
  /\ _normalize_exp_parts (Some "") (Some "2026") = ("", "26")
  /\ _normalize_exp_parts None None = ("", "")
  /\ _normalize_exp_parts (Some "25") (Some "2003") = ("03", "25")
  /\ _normalize_exp_parts (Some " 1/") (Some "20 31 ") = ("01", "31")
  /\ _normalize_exp_parts (Some "123") (Some "05") = ("05", "23")
  /\ _normalize_exp_parts (Some "7") (Some "123") = ("07", "123").
Proof.
  intros month' year'.
  pose proof (normalize_cases month year) as Hc. cbv zeta in Hc.
  fold month' year' in Hc.
  assert (Hswap : forall m y : N,
      Py.int month' = Some m -> Py.int year' = Some y ->
      (12 < m)%N -> (1 <= y <= 12)%N ->
      _normalize_exp_parts month year = (year', Py.last 2 (Py.str m))).
  { intros m y Hm Hy Hgt Hrange.
    destruct Hc as [[_ Hno] | (m1 & y1 & Hm1 & Hy1 & _ & _ & E)].
    - exfalso. apply Hno. now exists m, y.
    - assert (m1 = m) by congruence. now subst m1. }
  assert (Hkeep :
      ~ (exists m y : N, Py.int month' = Some m /\ Py.int year' = Some y
                         /\ (12 < m)%N /\ (1 <= y <= 12)%N) ->
      _normalize_exp_parts month year = (month', year')).
  { intros Hno. destruct Hc as [[E _] | (m1 & y1 & Hm1 & Hy1 & H1 & H2 & _)];
      [exact E|]. exfalso. apply Hno. now exists m1, y1. }
  split; [|split; [|split; [|split; [|split; [|repeat split; reflexivity]]]]].
  - intros m y Hm Hy Hgt Hrange. split; [now apply (Hswap m y)|].
    destruct (int_last2_str m ltac:(lia)) as [Hv Hl]. now split.
  - exact Hkeep.
  - intros m y Hm Hy Hgt Hrange.
    pose proof (int_digits_pad1 _ _ Hm) as Hm'.
    pose proof (int_year_small _ _ Hy (proj2 Hrange)) as Hy'.
    fold month' in Hm'. fold year' in Hy'.
    split; [exact Hm' | split; [exact Hy' | now apply (Hswap m y)]].
  - intros m Hm Hrange.
    pose proof (int_digits_pad1 _ _ Hm) as Hm'. fold month' in Hm'.
    split; [exact Hm'|]. apply Hkeep.
    intros (m1 & y1 & Hm1 & _ & Hgt & _).
    assert (m1 = m) by congruence. lia.
  - apply normalize_lengths.
Qed.

(** C1 at a pair that is swapped on the year as truncated, and at a pair
    that is kept although the month is above 12. *)
Lemma normalize_exp_parts_spec_witness :
  _normalize_exp_parts (Some "25") (Some "2003") = ("03", Py.last 2 (Py.str 25))
  /\ _normalize_exp_parts (Some "13") (Some "25") = ("13", "25")
  /\ _normalize_exp_parts (Some "3") (Some "12") = ("03", "12").
Proof.
  destruct (normalize_exp_parts_spec (Some "25") (Some "2003")) as (Hswap & _).
  destruct (Hswap 25%N 3%N eq_refl eq_refl ltac:(lia) ltac:(lia)) as (E & _).
  destruct (normalize_exp_parts_spec (Some "13") (Some "25")) as (_ & Hkeep & _).
  destruct (normalize_exp_parts_spec (Some "3") (Some "12"))
    as (_ & _ & _ & Hmonth & _).
  destruct (Hmonth 3%N eq_refl ltac:(lia)) as (_ & E').
  split; [exact E | split; [|exact E']].
  apply Hkeep. intros (m & y & Hm & Hy & Hgt & Hrange).
  vm_compute in Hm, Hy. injection Hm as <-. injection Hy as <-. lia.
Defined.

(** C1 as stated fails: a month of three digits loses its leading digit in
    the swap, so the two values do not change places. *)
Lemma normalize_exp_parts_drops_digit :
  _normalize_exp_parts (Some "123") (Some "05") = ("05", "23")
  /\ ~ swaps_values (Some "123") (Some "05").
Proof.
  split; [reflexivity|].
  intros H. destruct (H 123%N 5%N eq_refl eq_refl ltac:(lia) ltac:(lia)) as [_ E].
  vm_compute in E. discriminate.
Qed.

(** ** Account lines *)

(** *** [strip] gives a fixed point of [strip] *)

Lemma lstrip_head_ok (s : string) : head_ok (Py.lstrip s).
Proof.
  induction s as [|c s IH]; simpl; [exact I|].
  destruct (Py.isspace c) eqn:E; [exact IH | exact E].
Qed.

Lemma lstrip_id (s : string) : head_ok s -> Py.lstrip s = s.
Proof. destruct s as [|c s]; simpl; [reflexivity | now intros ->]. Qed.

Lemma rstrip_head_ok (s : string) : head_ok s -> head_ok (Py.rstrip s).
Proof.
  destruct s as [|c s]; simpl; [exact id|]. intros E.
  destruct (Py.rstrip s); [now rewrite E | exact E].
Qed.

Lemma rstrip_idem (s : string) : Py.rstrip (Py.rstrip s) = Py.rstrip s.
Proof.
  induction s as [|c s IH]; [reflexivity|]. cbn [Py.rstrip].
  destruct (Py.rstrip s) as [|d r] eqn:E.
  - destruct (Py.isspace c) eqn:Ec; [reflexivity|].
    cbn [Py.rstrip]. now rewrite Ec.
  - cbn [Py.rstrip]. cbn [Py.rstrip] in IH. rewrite IH. reflexivity.
Qed.

Lemma strip_idem (s : string) : Py.strip (Py.strip s) = Py.strip s.
Proof.
  unfold Py.strip.
  rewrite (lstrip_id (Py.rstrip (Py.lstrip s))).
  - apply rstrip_idem.
  - apply rstrip_head_ok, lstrip_head_ok.
Qed.

Lemma strip_parts_trimmed (parts : list string) :
  Forall (fun p => p <> EmptyString /\ Py.strip p = p) (strip_parts parts).
Proof.
  induction parts as [|p parts IH]; simpl; [constructor|].
  destruct (Py.truthy (Py.strip p)) eqn:E; [|exact IH].
  constructor; [|exact IH]. split; [|apply strip_idem].
  intros H. now rewrite H in E.
Qed.

(** *** [split] cuts at the separator *)

Lemma startswith_app (p s : string) :
  Py.startswith p s = true -> s = p +:+ Py.drop (String.length p) s.
Proof.
  revert s; induction p as [|a p IH]; intros s H; [now destruct s|].
  destruct s as [|b s]; [discriminate|]. simpl in H.
  apply andb_prop in H as [Hab H]. apply Ascii.eqb_eq in Hab. subst b.
  rewrite app_cons. simpl. f_equal. now apply IH.
Qed.

Lemma drop_drop (n k : nat) (s : string) :
  Py.drop n (Py.drop k s) = Py.drop (k + n) s.
Proof.
  revert s; induction k as [|k IH]; intros s; [reflexivity|].
  destruct s as [|c s]; simpl; [now destruct n | apply IH].
Qed.

Lemma find_cut (sep s : string) (i : nat) :
  Py.find sep s = Some i ->
  s = Py.take i s +:+ sep +:+ Py.drop (i + String.length sep) s.
Proof.
  revert i; induction s as [|c s IH]; intros i; cbn [Py.find].
  - destruct (Py.startswith sep EmptyString) eqn:E; [|discriminate].
    intros [= <-]. now apply startswith_app in E.
  - destruct (Py.startswith sep (String c s)) eqn:E.
    + intros [= <-]. now apply startswith_app in E.
    + destruct (Py.find sep s) as [j|]; [|discriminate].
      intros [= <-]. simpl. rewrite app_cons. f_equal. now apply IH.
Qed.

Lemma join_split_go (fuel : nat) (sep s : string) :
  join sep (Py.split_go fuel sep s) = s.
Proof.
  revert s; induction fuel as [|fuel IH]; intros s; [reflexivity|].
  cbn [Py.split_go]. destruct (Py.find sep s) as [i|] eqn:E; [|reflexivity].
  cbn [join]. rewrite IH.
  destruct (Py.split_go fuel sep (Py.drop (i + String.length sep) s)) eqn:E2.
  - destruct fuel; cbn [Py.split_go] in E2; [discriminate E2|].
    destruct (Py.find sep (Py.drop (i + String.length sep) s));
      discriminate E2.
  - symmetry. now apply find_cut.
Qed.

(** [sep.join(s.split(sep)) == s] *)
Lemma join_split (sep s : string) : join sep (Py.split sep s) = s.
Proof. apply join_split_go. Qed.

(** *** The separator that is chosen *)

Lemma first_separator_at (seps : list string) (line : string) (i : nat) sep :
  seps !! i = Some sep ->
  Py.contains sep line = true ->
  (forall j sep', j < i -> seps !! j = Some sep' -> Py.contains sep' line = false) ->
  first_separator seps line = Some sep.
Proof.
  revert i; induction seps as [|s seps IH]; intros i Hi Hin Hbefore.
  - discriminate.
  - destruct i as [|i]; simpl in *.
    + injection Hi as ->. now rewrite Hin.
    + rewrite (Hbefore 0 s ltac:(lia) eq_refl).
      apply (IH i Hi Hin). intros j sep' Hj Hs.
      apply (Hbefore (S j) sep'); [lia | exact Hs].
Qed.

Lemma first_separator_none (seps : list string) (line : string) :
  (forall sep, In sep seps -> Py.contains sep line = false) ->
  first_separator seps line = None.
Proof.
  induction seps as [|s seps IH]; intros H; [reflexivity|].
  simpl. rewrite (H s (or_introl eq_refl)). apply IH.
  intros sep Hs. apply H. now right.
Qed.

(** *** Whitespace splitting gives tokens that need no trimming *)

Lemma rstrip_no_space (s : string) : no_space s -> Py.rstrip s = s.
Proof.
  induction s as [|c s IH]; [reflexivity|]. intros [Hc Hs].
  cbn [Py.rstrip]. rewrite (IH Hs), Hc. now destruct s.
Qed.

Lemma strip_no_space (s : string) : no_space s -> Py.strip s = s.
Proof.
  intros H. unfold Py.strip. rewrite lstrip_id.
  - now apply rstrip_no_space.
  - destruct s; [exact I | apply H].
Qed.

Lemma cons_nonempty_tokens (p : string) (ps : list string) :
  no_space p -> Forall token ps -> Forall token (Py.cons_nonempty p ps).
Proof.
  intros Hp Hps. destruct p; [exact Hps|].
  constructor; [split; [discriminate | exact Hp] | exact Hps].
Qed.

Lemma split_ws_go_tokens (s : string) :
  no_space (Py.split_ws_go s).1 /\ Forall token (Py.split_ws_go s).2.
Proof.
  induction s as [|c s [IH1 IH2]]; [split; [exact I | constructor]|].
  cbn [Py.split_ws_go]. destruct (Py.split_ws_go s) as [p ps]. simpl in *.
  destruct (Py.isspace c) eqn:E; simpl.
  - split; [exact I | now apply cons_nonempty_tokens].
  - now split.
Qed.

Lemma split_ws_tokens (s : string) : Forall token (Py.split_ws s).
Proof.
  unfold Py.split_ws. pose proof (split_ws_go_tokens s) as [H1 H2].
  destruct (Py.split_ws_go s) as [p ps]. now apply cons_nonempty_tokens.
Qed.

Lemma strip_parts_tokens (parts : list string) :
  Forall token parts -> strip_parts parts = parts.
Proof.
  induction 1 as [|p parts [Hne Hns] _ IH]; [reflexivity|].
  simpl. rewrite (strip_no_space _ Hns), IH. now destruct p.
Qed.

(** *** Whitespace *)

Lemma isspace_blank (c : ascii) : Py.isspace c = true <-> blank c.
Proof.
  unfold Py.isspace, blank. generalize (nat_of_ascii c) as n. intros n.
  cbn [In].
  rewrite !orb_true_iff, !andb_true_iff, !Nat.leb_le, !Nat.eqb_eq. lia.
Qed.

Lemma not_isspace_blank (c : ascii) : Py.isspace c = false <-> ~ blank c.
Proof.
  rewrite <- isspace_blank. destruct (Py.isspace c); split; intros H;
    try discriminate; try reflexivity; try (intros X; discriminate X).
  now destruct H.
Qed.

Lemma all_blank_app (s t : string) :
  all_blank s -> all_blank t -> all_blank (s +:+ t).
Proof.
  induction s as [|c s IH]; [now intros|].
  intros [Hc Hs] Ht. rewrite app_cons. split; [exact Hc | now apply IH].
Qed.

Lemma app_nil_r_string (s : string) : s +:+ EmptyString = s.
Proof. induction s as [|c s IH]; [reflexivity|]. rewrite app_cons. now rewrite IH. Qed.

Lemma app_eq_nil_string (s t : string) :
  s +:+ t = EmptyString -> s = EmptyString /\ t = EmptyString.
Proof. destruct s; [now intros | discriminate]. Qed.

Lemma lstrip_spec (s : string) :
  exists a, s = a +:+ Py.lstrip s /\ all_blank a.
Proof.
  induction s as [|c s (a & IH & Ha)]; [now exists EmptyString|].
  cbn [Py.lstrip]. destruct (Py.isspace c) eqn:E.
  - exists (String c a). rewrite app_cons, <- IH.
    split; [reflexivity|]. split; [now apply isspace_blank | exact Ha].
  - now exists EmptyString.
Qed.

Lemma rstrip_spec (s : string) :
  (exists b, s = Py.rstrip s +:+ b /\ all_blank b)
  /\ (forall q c, Py.rstrip s = q +:+ String c EmptyString -> ~ blank c).
Proof.
  induction s as [|c s [(b & IH & Hb) Hlast]].
  - split; [now exists EmptyString|]. intros q d H.
    symmetry in H. apply app_eq_nil_string in H as [_ H]. discriminate H.
  - cbn [Py.rstrip]. destruct (Py.rstrip s) as [|d r] eqn:E.
    + rewrite app_nil in IH. subst b.
      destruct (Py.isspace c) eqn:Ec.
      * split.
        -- exists (String c s). split; [reflexivity|].
           split; [now apply isspace_blank | exact Hb].
        -- intros q d H. symmetry in H.
           apply app_eq_nil_string in H as [_ H]. discriminate H.
      * split.
        -- exists s. split; [reflexivity | exact Hb].
        -- intros q d H. destruct q as [|x q].
           ++ injection H as <-. now apply not_isspace_blank.
           ++ rewrite app_cons in H. injection H as _ H. symmetry in H.
              apply app_eq_nil_string in H as [_ H]. discriminate H.
    + split.
      * exists b. rewrite !app_cons. rewrite app_cons in IH.
        split; [now rewrite <- IH | exact Hb].
      * intros q x H. destruct q as [|y q].
        -- discriminate H.
        -- rewrite app_cons in H. injection H as _ H. now apply (Hlast q x).
Qed.

Lemma head_ok_blank (s : string) :
  head_ok s -> forall c q, s = String c q -> ~ blank c.
Proof. intros H c q ->. now apply not_isspace_blank. Qed.

(** [strip] takes the whitespace off the two ends. *)
Lemma strip_spec (s : string) : trimmed_of s (Py.strip s).
Proof.
  unfold Py.strip.
  destruct (lstrip_spec s) as (a & Ha & Hab).
  destruct (rstrip_spec (Py.lstrip s)) as [(b & Hb & Hbb) Hlast].
  exists a, b. split; [|split; [exact Hab | split; [exact Hbb|]]].
  - now rewrite <- Hb.
  - split; [|exact Hlast].
    apply head_ok_blank, rstrip_head_ok, lstrip_head_ok.
Qed.

Lemma strip_empty_blank (s : string) :
  Py.strip s = EmptyString -> all_blank s.
Proof.
  intros E. destruct (strip_spec s) as (a & b & Hs & Ha & Hb & _).
  rewrite E, app_nil in Hs. subst s. now apply all_blank_app.
Qed.

Lemma strip_parts_kept (pieces : list string) : kept pieces (strip_parts pieces).
Proof.
  induction pieces as [|s pieces IH]; [constructor|].
  cbn [strip_parts]. destruct (Py.strip s) as [|c p] eqn:E; cbn [Py.truthy].
  - apply kept_blank; [now apply strip_empty_blank | exact IH].
  - apply kept_part; [discriminate | | exact IH].
    rewrite <- E. apply strip_spec.
Qed.

(** *** Cutting at a separator *)

Lemma startswith_refl_app (p s : string) : Py.startswith p (p +:+ s) = true.
Proof.
  induction p as [|a p IH]; [reflexivity|].
  rewrite app_cons. simpl. now rewrite Ascii.eqb_refl.
Qed.

Lemma contains_app (sep a b : string) : Py.contains sep (a +:+ sep +:+ b) = true.
Proof.
  unfold Py.contains. induction a as [|c a IH].
  - rewrite app_nil. destruct (sep +:+ b) eqn:E; cbn [Py.find];
      rewrite <- E, startswith_refl_app; reflexivity.
  - rewrite app_cons. cbn [Py.find].
    destruct (Py.startswith sep (String c (a +:+ sep +:+ b))); [reflexivity|].
    now destruct (Py.find sep (a +:+ sep +:+ b)).
Qed.

Lemma contains_occurs (sep line : string) :
  Py.contains sep line = true <-> occurs sep line.
Proof.
  split.
  - unfold Py.contains. destruct (Py.find sep line) as [i|] eqn:E; [|discriminate].
    intros _. eexists _, _. exact (find_cut _ _ _ E).
  - intros (a & b & ->). apply contains_app.
Qed.

Lemma not_contains_occurs (sep line : string) :
  Py.contains sep line = false <-> ~ occurs sep line.
Proof.
  rewrite <- contains_occurs. destruct (Py.contains sep line); split; intros H;
    try discriminate; try reflexivity; try (intros X; discriminate X).
  now destruct H.
Qed.

(** [find] gives the leftmost occurrence. *)
Lemma find_first (sep s : string) (i : nat) :
  Py.find sep s = Some i ->
  forall a b, s = a +:+ sep +:+ b -> i <= String.length a.
Proof.
  revert i; induction s as [|c s IH]; intros i; cbn [Py.find].
  - destruct (Py.startswith sep EmptyString); [|discriminate].
    intros [= <-] a b _. lia.
  - destruct (Py.startswith sep (String c s)) eqn:E.
    + intros [= <-] a b _. lia.
    + destruct (Py.find sep s) as [j|] eqn:Ej; [|discriminate].
      intros [= <-] a b Hs. destruct a as [|x a].
      * rewrite app_nil in Hs. rewrite Hs, startswith_refl_app in E.
        discriminate E.
      * rewrite app_cons in Hs. injection Hs as _ Hs.
        simpl. apply le_n_S. now apply (IH j eq_refl a b).
Qed.

Lemma length_take_string (n : nat) (s : string) :
  n <= String.length s -> String.length (Py.take n s) = n.
Proof.
  revert s; induction n as [|n IH]; intros s H; [now destruct s|].
  destruct s as [|c s]; simpl in *; [lia|]. rewrite IH; lia.
Qed.

Lemma find_le (sep s : string) (i : nat) :
  Py.find sep s = Some i -> i + String.length sep <= String.length s.
Proof.
  assert (Hstart : forall t, Py.startswith sep t = true ->
                             String.length sep <= String.length t).
  { intros t H. apply startswith_app in H.
    apply (f_equal String.length) in H. rewrite length_app_string in H. lia. }
  revert i; induction s as [|c s IH]; intros i; cbn [Py.find].
  - destruct (Py.startswith sep EmptyString) eqn:E; [|discriminate].
    intros [= <-]. now apply Hstart.
  - destruct (Py.startswith sep (String c s)) eqn:E.
    + intros [= <-]. now apply Hstart.
    + destruct (Py.find sep s) as [j|]; [|discriminate].
      intros [= <-]. specialize (IH j eq_refl). simpl. lia.
Qed.

Lemma split_go_nonempty (fuel : nat) (sep s : string) :
  Py.split_go fuel sep s <> [].
Proof.
  destruct fuel; cbn [Py.split_go]; [discriminate|].
  destruct (Py.find sep s); discriminate.
Qed.

Lemma split_go_cut (fuel : nat) (sep s : string) :
  sep <> EmptyString -> String.length s <= fuel ->
  cut_at sep (Py.split_go fuel sep s) s.
Proof.
  intros Hsep. revert s; induction fuel as [|fuel IH]; intros s Hl.
  - cbn [Py.split_go cut_at]. split; [reflexivity|].
    destruct s; [|simpl in Hl; lia].
    intros (a & b & E). symmetry in E.
    apply app_eq_nil_string in E as [_ E].
    apply app_eq_nil_string in E as [E _]. contradiction.
  - cbn [Py.split_go]. destruct (Py.find sep s) as [i|] eqn:E.
    + pose proof (find_le _ _ _ E) as Hle.
      assert (1 <= String.length sep) by (destruct sep; [contradiction | simpl; lia]).
      pose proof (IH (Py.drop (i + String.length sep) s)) as IH'.
      pose proof (split_go_nonempty fuel sep (Py.drop (i + String.length sep) s)) as Hne.
      destruct (Py.split_go fuel sep (Py.drop (i + String.length sep) s))
        as [|p ps]; [contradiction|].
      cbn [cut_at]. exists (Py.drop (i + String.length sep) s).
      split; [exact (find_cut _ _ _ E)|]. split.
      * intros a b Hs. rewrite length_take_string by lia.
        exact (find_first _ _ _ E a b Hs).
      * apply IH'. rewrite length_drop. lia.
    + cbn [cut_at]. split; [reflexivity|].
      apply not_contains_occurs. unfold Py.contains. now rewrite E.
Qed.

(** [split] cuts the line at every occurrence of the separator. *)
Lemma split_cut (sep s : string) :
  sep <> EmptyString -> cut_at sep (Py.split sep s) s.
Proof. intros H. apply split_go_cut; [exact H | lia]. Qed.

(** *** Splitting on whitespace *)

Lemma no_space_no_blank (s : string) : no_space s -> no_blank s.
Proof.
  induction s as [|c s IH]; [exact id|]. intros [Hc Hs].
  split; [now apply not_isspace_blank | now apply IH].
Qed.

Lemma ws_split_blank (c : ascii) (s : string) (parts : list string) :
  blank c -> ws_split s parts -> ws_split (String c s) parts.
Proof.
  intros Hc H. destruct H as [s Hs | a t rest parts Ha Ht Hnb Hrest H].
  - apply ws_no_token. now split.
  - rewrite <- app_cons. apply ws_token; try assumption. now split.
Qed.

Lemma split_ws_go_spec (s : string) :
  let '(p, ps) := Py.split_ws_go s in
  exists rest, s = p +:+ rest /\ no_blank p
               /\ (forall c q, rest = String c q -> blank c)
               /\ ws_split rest ps.
Proof.
  induction s as [|c s IH].
  - exists EmptyString. repeat split; [discriminate | now apply ws_no_token].
  - cbn [Py.split_ws_go]. destruct (Py.split_ws_go s) as [p ps].
    destruct IH as (rest & Hs & Hp & Hrest & Hws).
    destruct (Py.isspace c) eqn:E.
    + apply isspace_blank in E.
      exists (String c s). split; [reflexivity|]. split; [exact I|].
      split; [now intros c' q [= <- _]|].
      destruct p as [|d p]; cbn [Py.cons_nonempty].
      * rewrite app_nil in Hs. subst s. now apply ws_split_blank.
      * subst s. change (String c (String d p +:+ rest))
          with (String c EmptyString +:+ String d p +:+ rest).
        apply ws_token; try assumption; [now split | discriminate].
    + apply not_isspace_blank in E.
      exists rest. rewrite app_cons, <- Hs. split; [reflexivity|].
      split; [now split|]. now split.
Qed.

(** [split()] gives the maximal runs of characters that are not
    whitespace. *)
Lemma split_ws_spec (s : string) : ws_split s (Py.split_ws s).
Proof.
  unfold Py.split_ws. pose proof (split_ws_go_spec s) as H.
  destruct (Py.split_ws_go s) as [p ps].
  destruct H as (rest & -> & Hp & Hrest & Hws).
  destruct p as [|d p]; cbn [Py.cons_nonempty]; [exact Hws|].
  rewrite <- (app_nil (String d p +:+ rest)).
  apply ws_token; try assumption; [exact I | discriminate].
Qed.

Lemma kept_clean (pieces parts : list string) :
  kept pieces parts ->
  Forall (fun p => p <> EmptyString /\ clean_ends p) parts.
Proof.
  induction 1 as [|s pieces parts _ _ IH|s p pieces parts Hp Ht _ IH];
    [constructor | exact IH |].
  constructor; [|exact IH]. split; [exact Hp|].
  now destruct Ht as (a & b & _ & _ & _ & Hc).
Qed.

Lemma no_blank_clean (t : string) : no_blank t -> clean_ends t.
Proof.
  intros H. split.
  - intros c q ->. apply H.
  - intros q c ->. induction q as [|x q IH]; [apply H|].
    rewrite app_cons in H. apply IH, H.
Qed.

Lemma ws_split_clean (s : string) (parts : list string) :
  ws_split s parts ->
  Forall (fun p => p <> EmptyString /\ clean_ends p) parts.
Proof.
  induction 1 as [|a t rest parts _ Ht Hnb _ _ IH]; [constructor|].
  constructor; [|exact IH]. split; [exact Ht | now apply no_blank_clean].
Qed.

(** *** The claim *)

Lemma separators_nonempty (i : nat) (sep : string) :
  separators !! i = Some sep -> sep <> EmptyString.
Proof.
  intros H ->. do 6 (destruct i as [|i]; [discriminate H|]). discriminate H.
Qed.

(** C8: for every account line, [_split_account_line] splits on the
    separator the caller supplies (a non-empty string) when it occurs in the
    line; otherwise on the first separator of the list [----], [---], [|],
    [,], [;], tab that occurs in the line; otherwise on whitespace.
    Splitting on a separator cuts the line at every occurrence of it, the
    leftmost first; the parts returned are the pieces with the whitespace
    taken off their two ends, a piece of whitespace only being left out, so
    that no part is empty and none begins or ends with whitespace.  The
    examples of the spec hold, as do examples for each separator of the
    list, for the order of the list and for blanks around the parts. *)
Theorem split_account_line_spec (line separator : string) :
  let tab := String (ascii_of_nat 9) EmptyString in
  let priority := ["----"; "---"; "|"; ","; ";"; tab] in
  let parts := _split_account_line line separator in
  (separator <> EmptyString -> occurs separator line ->
   exists pieces, cut_at separator pieces line /\ kept pieces parts)
  /\ (separator = EmptyString \/ ~ occurs separator line ->
      forall (i : nat) (sep : string),
        priority !! i = Some sep -> occurs sep line ->
        (forall j sep', j < i -> priority !! j = Some sep' ->
                        ~ occurs sep' line) ->
        exists pieces, cut_at sep pieces line /\ kept pieces parts)
  /\ (separator = EmptyString \/ ~ occurs separator line ->
      (forall sep, In sep priority -> ~ occurs sep line) ->
      ws_split line parts)
  /\ Forall (fun p => p <> EmptyString /\ clean_ends p) parts
  /\ _split_account_line "a@x.com----pw----rec----secret" "----"
     = ["a@x.com"; "pw"; "rec"; "secret"]
  /\ _split_account_line "a@x.com,pw" "----" = ["a@x.com"; "pw"]
  /\ _split_account_line "a@x.com  pw rec" "----" = ["a@x.com"; "pw"; "rec"]
  /\ _split_account_line " a@x.com | pw |  | rec@x.com " "----"
     = ["a@x.com"; "pw"; "rec@x.com"]
  /\ _split_account_line "a---b" "----" = ["a"; "b"]
  /\ _split_account_line "a;b" "----" = ["a"; "b"]
  /\ _split_account_line ("a" +:+ tab +:+ "b c") "----" = ["a"; "b c"]
  /\ _split_account_line "a----b---c" "" = ["a"; "b---c"]
  /\ _split_account_line "a---b|c" "" = ["a"; "b|c"]
  /\ _split_account_line "a,b|c" "" = ["a,b"; "c"]
  /\ _split_account_line "a;b,c" "" = ["a;b"; "c"]
  /\ _split_account_line ("a;b" +:+ tab +:+ "c") "" = ["a"; "b" +:+ tab +:+ "c"]
  /\ _split_account_line "a#b,c" "#" = ["a"; "b,c"]
  /\ _split_account_line "a,b" "#" = ["a"; "b"]
  /\ _split_account_line "----" "----" = []
  /\ _split_account_line ("  a " +:+ tab +:+ " b  ") "----" = ["a"; "b"].
Proof.
  intros tab priority parts.
  assert (Hguard : separator = EmptyString \/ ~ occurs separator line ->
                   Py.truthy separator && Py.contains separator line = false).
  { intros [-> | H]; [reflexivity|].
    apply not_contains_occurs in H. rewrite H. apply andb_false_r. }
  split; [|split; [|split; [|split; [|repeat split; reflexivity]]]].
  - intros Hne Hin. exists (Py.split separator line).
    split; [now apply split_cut|].
    subst parts. unfold _split_account_line.
    apply contains_occurs in Hin. rewrite Hin.
    replace (Py.truthy separator) with true by (now destruct separator).
    apply strip_parts_kept.
  - intros Hsep i sep Hi Hin Hbefore. exists (Py.split sep line).
    change priority with separators in Hi, Hbefore.
    split; [apply split_cut; now apply (separators_nonempty i)|].
    subst parts. unfold _split_account_line.
    rewrite (Hguard Hsep), (first_separator_at _ _ i sep Hi).
    + apply strip_parts_kept.
    + now apply contains_occurs.
    + intros j sep' Hj Hs. apply not_contains_occurs. now apply (Hbefore j).
  - intros Hsep Hnone. subst parts. unfold _split_account_line.
    rewrite (Hguard Hsep), first_separator_none.
    + rewrite strip_parts_tokens by apply split_ws_tokens. apply split_ws_spec.
    + intros sep Hs. apply not_contains_occurs. now apply Hnone.
  - subst parts. unfold _split_account_line.
    destruct (Py.truthy separator && Py.contains separator line);
      [|destruct (first_separator separators line)];
      eapply kept_clean; apply strip_parts_kept.
Qed.

(** C8 at a line with blanks around its parts and an empty field, cut at
    the bar; at a line cut at the semicolon; and at a line of tokens. *)
Lemma split_account_line_spec_witness :
  (exists pieces,
      cut_at "|" pieces " a@x.com | pw |  | rec@x.com "
      /\ kept pieces ["a@x.com"; "pw"; "rec@x.com"])
  /\ (exists pieces,
      cut_at ";" pieces "a@x.com;pw" /\ kept pieces ["a@x.com"; "pw"])
  /\ ws_split "a@x.com  pw rec" ["a@x.com"; "pw"; "rec"].
Proof.
  assert (Hno : forall sep line, Py.contains sep line = false -> ~ occurs sep line)
    by (intros sep line; apply not_contains_occurs).
  assert (Hyes : forall sep line, Py.contains sep line = true -> occurs sep line)
    by (intros sep line; apply contains_occurs).
  split; [|split].
  - set (line := " a@x.com | pw |  | rec@x.com ").
    destruct (split_account_line_spec line "----") as (_ & H & _).
    apply (H (or_intror (Hno "----" line eq_refl)) 2 "|");
      [reflexivity | now apply Hyes |].
    intros j sep' Hj Hs.
    destruct j as [|[|j]]; [| | lia];
      injection Hs as <-; now apply Hno.
  - set (line := "a@x.com;pw").
    destruct (split_account_line_spec line "----") as (_ & H & _).
    apply (H (or_intror (Hno "----" line eq_refl)) 4 ";");
      [reflexivity | now apply Hyes |].
    intros j sep' Hj Hs.
    destruct j as [|[|[|[|j]]]]; [| | | | lia];
      injection Hs as <-; now apply Hno.
  - set (line := "a@x.com  pw rec").
    destruct (split_account_line_spec line "----") as (_ & _ & H & _).
    apply (H (or_intror (Hno "----" line eq_refl))).
    intros sep Hs. simpl in Hs.
    destruct Hs as [<- | [<- | [<- | [<- | [<- | [<- | []]]]]]]; now apply Hno.
Defined.

(** ** Running programs *)

Section RunLemmas.
Context {call : Type} {resp : call -> Type}.
Implicit Types (w : world resp) (tr : list (event resp)).

Lemma run_bind {A B} w (p : prog resp A) (f : A -> prog resp B) tr :
  run w (bind p f) tr =
  match run w p tr with
  | (Normal a, tr') => run w (f a) tr'
  | (Return r, tr') => (Return r, tr')
  | (Raise e, tr') => (Raise e, tr')
  end.
Proof.
  revert tr; induction p as [[a|r|e]|c k IH]; intros tr; try reflexivity.
  simpl. apply IH.
Qed.

Lemma run_try_with {A} w catches (p : prog resp A) h tr :
  run w (try_with catches p h) tr =
  match run w p tr with
  | (Raise e, tr') => if catches e then run w (h e) tr' else (Raise e, tr')
  | other => other
  end.
Proof.
  revert tr; induction p as [[a|r|e]|c k IH]; intros tr; try reflexivity.
  - simpl. now destruct (catches e).
  - simpl. apply IH.
Qed.

Lemma run_try_finally {A} w (p : prog resp A) fin tr :
  run w (try_finally p fin) tr =
  let '(o, tr') := run w p tr in
  match run w fin tr' with
  | (Normal _, tr'') => (o, tr'')
  | (Return r, tr'') => (Return r, tr'')
  | (Raise e, tr'') => (Raise e, tr'')
  end.
Proof.
  revert tr; induction p as [o|c k IH]; intros tr.
  - simpl. rewrite run_bind. now destruct (run w fin tr) as [[a|r|e] tr'].
  - simpl. apply IH.
Qed.

Lemma run_invoke w (p : prog resp unit) tr :
  run w (invoke p) tr =
  match run w p tr with
  | (Normal _, tr') => (Normal None, tr')
  | (Return r, tr') => (Normal (Some r), tr')
  | (Raise e, tr') => (Raise e, tr')
  end.
Proof.
  revert tr; induction p as [[a|r|e]|c k IH]; intros tr; try reflexivity.
  simpl. apply IH.
Qed.

Lemma run_perform w (c : call) tr :
  run w (perform c) tr =
  (match w c tr with inl e => Raise e | inr v => Normal v end,
   tr ++ [existT c (w c tr)]).
Proof. simpl. now destruct (w c tr). Qed.


Lemma ends_run {A} (P : outcome A -> Prop) (p : prog resp A) w tr :
  ends P p -> P (run w p tr).1.
Proof.
  revert tr; induction p as [o|c k IH]; intros tr H; [exact H|].
  simpl. apply IH, H.
Qed.

Lemma ends_weaken {A} (P Q : outcome A -> Prop) (p : prog resp A) :
  (forall o, P o -> Q o) -> ends P p -> ends Q p.
Proof.
  intros HPQ. induction p as [o|c k IH]; simpl; [apply HPQ|].
  intros H r. apply IH, H.
Qed.


Lemma ends_bind_gen {A B} (Q : outcome B -> Prop) (p : prog resp A)
    (f : A -> prog resp B) :
  ends (fun o => match o with
                 | Normal a => ends Q (f a)
                 | Return r => Q (Return r)
                 | Raise e => Q (Raise e)
                 end) p ->
  ends Q (bind p f).
Proof. induction p as [[a|r|e]|c k IH]; simpl; auto. Qed.

Lemma ends_try_with {A} (Q : outcome A -> Prop) (catches : exn -> bool)
    (p : prog resp A) (h : exn -> prog resp A) :
  ends (fun o => match o with
                 | Raise e => if catches e then True else Q (Raise e)
                 | _ => Q o
                 end) p ->
  (forall e, catches e = true -> ends Q (h e)) ->
  ends Q (try_with catches p h).
Proof.
  intros Hp Hh. induction p as [[a|r|e]|c k IH]; simpl in *; auto.
  destruct (catches e) eqn:E; [now apply Hh | exact Hp].
Qed.

Lemma ends_invoke (Q : outcome (option result) -> Prop) (p : prog resp unit) :
  ends (fun o => match o with
                 | Normal _ => Q (Normal None)
                 | Return r => Q (Normal (Some r))
                 | Raise e => Q (Raise e)
                 end) p ->
  ends Q (invoke p).
Proof. induction p as [[a|r|e]|c k IH]; simpl; auto. Qed.

Lemma ends_True {A} (Q : outcome A -> Prop) (p : prog resp A) :
  (forall o, Q o) -> ends Q p.
Proof. intros H. induction p as [o|c k IH]; simpl; auto. Qed.

End RunLemmas.




(** ** [auto_bind_card] always gives a result *)

Section Leaves.
Context {call : Type} {resp : call -> Type}.





End Leaves.



(** *** The results that are returned *)

Section ReturnsSat.
Context {call : Type} {resp : call -> Type}.
Variable S : result -> Prop.






End ReturnsSat.











(** ** Where a run of [auto_bind_card] stands *)

Section Reach.
Variable DEFAULT_CARD : dict.
Variable w : world resp.
Implicit Types (tr : list (event resp)) (r : result).

(** A [return] before the card form is the result of the run. *)
Lemma return_before_card_form card_info account_info tr0 r tr :
  run w (to_card_form account_info) tr0 = (Return r, tr) ->
  run w (auto_bind_card DEFAULT_CARD card_info account_info) tr0
  = (Normal (Some r), tr).
Proof.
  intros H. unfold auto_bind_card.
  now rewrite run_invoke, run_try_with, run_bind, H.
Qed.

(** So is a [return] from the card form on. *)
Lemma return_from_card_form card_info account_info tr0 card_form_frame tr r tr' :
  run w (to_card_form account_info) tr0 = (Normal card_form_frame, tr) ->
  run w (from_card_form (default DEFAULT_CARD card_info) account_info
           card_form_frame) tr = (Return r, tr') ->
  run w (auto_bind_card DEFAULT_CARD card_info account_info) tr0
  = (Normal (Some r), tr').
Proof.
  intros H1 H2. unfold auto_bind_card.
  now rewrite run_invoke, run_try_with, run_bind, H1, H2.
Qed.

End Reach.

(** ** The card form *)

Lemma run_getitem (w : world resp) (d : dict) (key value : string) tr :
  d !! key = Some value -> run w (getitem d key) tr = (Normal value, tr).
Proof. intros H. unfold getitem. now rewrite H. Qed.

Lemma run_getitem_none (w : world resp) (d : dict) (key : string) tr :
  d !! key = None ->
  run w (getitem d key) tr = (Raise (Exception ("'" +:+ key +:+ "'")), tr).
Proof. intros H. unfold getitem. now rewrite H. Qed.

(** A card without a number ends the run when the card form is reached: the
    [print] before the [try] of step 4 reads [card_info['number']], and the
    [KeyError] goes to the outer handler. *)
Lemma run_without_number (DEFAULT_CARD : dict) (w : world resp)
    (card_info account_info : option dict) tr0 card_form_frame tr :
  run w (to_card_form account_info) tr0 = (Normal card_form_frame, tr) ->
  default DEFAULT_CARD card_info !! "number" = None ->
  run w (auto_bind_card DEFAULT_CARD card_info account_info) tr0
  = (Normal (Some (false, "绑卡错误: 'number'")), tr).
Proof.
  intros Hreach Hnumber. unfold auto_bind_card.
  rewrite run_invoke, run_try_with, run_bind, Hreach.
  unfold from_card_form, stage_card_entry, stage_card_number.
  now rewrite !run_bind, (run_getitem_none _ _ _ _ Hnumber).
Qed.

(** C7 (amended): when the run has reached the card form with a card that
    has a number, and the frame of the form holds fewer than three inputs,
    the run ends there with [(False, "输入框数量不足，只找到 n 个")], [n]
    being the count: the count is the last call of the run, so no input is
    clicked or filled and nothing is tried again.  With a card that has no
    number the run ends before the inputs are counted, with
    [(False, "绑卡错误: 'number'")]. *)
Theorem too_few_inputs_is_fatal (DEFAULT_CARD : dict) (w : world resp)
    (card_info account_info : option dict) tr0 card_form_frame tr :
  let all_inputs := Locator (InFrame card_form_frame) "input" All in
  let card := default DEFAULT_CARD card_info in
  run w (to_card_form account_info) tr0 = (Normal card_form_frame, tr) ->
  (forall (number : string) (input_count : nat),
      card !! "number" = Some number ->
      w (Count all_inputs) tr = inr input_count ->
      input_count < 3 ->
      run w (auto_bind_card DEFAULT_CARD card_info account_info) tr0
      = (Normal (Some (false,
                       match input_count with
                       | 0 => "输入框数量不足，只找到 0 个"
                       | 1 => "输入框数量不足，只找到 1 个"
                       | _ => "输入框数量不足，只找到 2 个"
                       end)),
         tr ++ [existT (Count all_inputs) (inr input_count)]))
  /\ (card !! "number" = None ->
      run w (auto_bind_card DEFAULT_CARD card_info account_info) tr0
      = (Normal (Some (false, "绑卡错误: 'number'")), tr)).
Proof.
  intros all_inputs card Hreach. split.
  - intros number input_count Hnumber Hcount Hlt.
    eapply return_from_card_form; [exact Hreach|].
    unfold from_card_form, stage_card_entry, stage_card_number.
    rewrite !run_bind, (run_getitem _ _ _ _ _ Hnumber).
    rewrite run_try_with, run_bind. unfold await. rewrite run_perform.
    fold all_inputs. rewrite Hcount.
    pose proof Hlt as Hlt'. apply Nat.ltb_lt in Hlt'. rewrite Hlt'.
    destruct input_count as [|[|[|n]]]; [reflexivity..|lia].
  - intros Hnumber. exact (run_without_number _ _ _ _ _ _ _ Hreach Hnumber).
Qed.

Lemma run_zip_loop (w : world resp) (card_form_frame : frame)
    (input_count : nat) (zip_code : string) (k i : nat) tr o tr' :
  let all_inputs := Locator (InFrame card_form_frame) "input" All in
  i + k = Nat.max i input_count ->
  run w (for_first (seq i k) (zip_body all_inputs input_count zip_code)) tr
  = (o, tr') ->
  match o with
  | Normal _ | Raise (Exception _) =>
      exists zt, tr' = tr ++ zt
                 /\ zip_trace card_form_frame input_count zip_code i zt
  | _ => True
  end.
Proof.
  intros all_inputs. revert i tr; induction k as [|k IH]; intros i tr Hik H.
  - simpl in H. injection H as <- <-. exists []. split; [now rewrite app_nil_r|].
    apply zip_no_input. lia.
  - assert (Hi : i < input_count) by lia.
    cbn [seq for_first] in H. rewrite run_bind in H. unfold zip_body at 1 in H.
    rewrite run_bind in H. unfold await in H. rewrite run_perform in H.
    change (nth_of all_inputs i)
      with (Locator (InFrame card_form_frame) "input" (Nth i)) in H.
    set (input := Locator (InFrame card_form_frame) "input" (Nth i)) in *.
    set (c1 := GetAttribute input "type") in *.
    destruct (w c1 tr) as [[m|m]|input_type] eqn:E1.
    + injection H as <- <-. eexists. split; [reflexivity|].
      now apply zip_type_raises.
    + now injection H as <- <-.
    + destruct (bool_decide (input_type = Some "tel") || (i =? input_count - 1))
        eqn:Hcond.
      * assert (Hc : input_type = Some "tel" \/ i = input_count - 1).
        { apply orb_prop in Hcond as [Hc|Hc].
          - left. now apply bool_decide_eq_true in Hc.
          - right. now apply Nat.eqb_eq in Hc. }
        rewrite run_bind, run_perform in H.
        set (c2 := Click input false) in *.
        destruct (w c2 (tr ++ [existT c1 (inr input_type)])) as [[m|m]|[]] eqn:E2.
        -- injection H as <- <-. eexists. split; [now rewrite <- app_assoc|].
           now apply zip_click_raises.
        -- now injection H as <- <-.
        -- rewrite run_bind, run_perform in H.
           set (c3 := Fill input zip_code) in *.
           destruct (w c3 _) as [[m|m]|[]] eqn:E3.
           ++ injection H as <- <-. eexists.
              split; [now rewrite <- !app_assoc|]. now apply zip_fill_raises.
           ++ now injection H as <- <-.
           ++ simpl in H. injection H as <- <-. eexists.
              split; [now rewrite <- !app_assoc|]. now apply zip_filled.
      * apply orb_false_elim in Hcond as [Hc1 Hc2].
        apply bool_decide_eq_false in Hc1. apply Nat.eqb_neq in Hc2.
        simpl in H. apply IH in H; [|lia].
        destruct o as [a|r|[m|m]]; try exact I;
          destruct H as (zt & -> & Hzt);
          (eexists; split; [now rewrite <- app_assoc|]);
          now apply zip_pass.
Qed.

(** Symbolic execution of one step of a run that is described by [H]. *)
Ltac exec H :=
  repeat (rewrite ?run_bind, ?run_try_with, ?run_try_finally in H;
          unfold do, await, perform, ret, raise, return_ in H;
          cbn [run] in H; cbv beta iota in H).

(** One spelling for the types of the answers. *)
Ltac norm :=
  unfold ok, failed, event in *; cbv beta iota delta [resp] in *.

Ltac exec_goal :=
  repeat (rewrite ?run_bind, ?run_try_with;
          unfold await, perform, ret, raise, return_;
          cbn [run]; cbv beta iota).

(** Two calls in a row inside a [try] whose handler returns: both answered,
    or the block does not run to its end. *)
Lemma run_click_fill (w : world resp) (l : locator) (value : string)
    (msg : exn -> string) tr tr' :
  run w (try_with catch_Exception
           (await (Click l false);; await (Fill l value))
           (fun e => return_ (false, msg e))) tr
  = (Normal (), tr') ->
  tr' = tr ++ [ok (Click l false) (); ok (Fill l value) ()].
Proof.
  intros H. exec H.
  destruct (w (Click l false) tr) as [[m|m]|[]] eqn:E1; exec H;
    try discriminate H.
  destruct (w (Fill l value) _) as [[m|m]|[]] eqn:E2; exec H;
    try discriminate H.
  injection H as <-. now rewrite <- app_assoc.
Qed.

Lemma run_stage_card_number (w : world resp) card_info card_form_frame tr
    all_inputs input_count tr' :
  run w (stage_card_number card_info card_form_frame) tr
  = (Normal (all_inputs, input_count), tr') ->
  exists number,
    card_info !! "number" = Some number
    /\ all_inputs = Locator (InFrame card_form_frame) "input" All
    /\ 3 <= input_count
    /\ tr' = tr ++ [ok (Count all_inputs) input_count;
                    ok (Click (Locator (InFrame card_form_frame) "input" (Nth 0))
                              false) ();
                    ok (Fill (Locator (InFrame card_form_frame) "input" (Nth 0))
                             number) ()].
Proof.
  unfold stage_card_number. intros H. rewrite run_bind in H.
  destruct (card_info !! "number") as [number|] eqn:Hn;
    [|now rewrite (run_getitem_none _ _ _ _ Hn) in H].
  rewrite (run_getitem _ _ _ _ _ Hn) in H.
  exists number. split; [reflexivity|].
  set (all := Locator (InFrame card_form_frame) "input" All) in *.
  change (nth_of all 0)
    with (Locator (InFrame card_form_frame) "input" (Nth 0)) in H.
  set (input := Locator (InFrame card_form_frame) "input" (Nth 0)) in *.
  exec H.
  destruct (w (Count all) tr) as [[m|m]|n] eqn:E0; exec H; try discriminate H.
  destruct (n <? 3) eqn:Hlt; exec H; [discriminate H|]. apply Nat.ltb_ge in Hlt.
  destruct (w (Click input false) _) as [[m|m]|[]] eqn:E1; exec H;
    try discriminate H.
  rewrite (run_getitem _ _ _ _ _ Hn) in H. exec H.
  destruct (w (Fill input number) _) as [[m|m]|[]] eqn:E2; exec H;
    try discriminate H.
  injection H as <- <- <-. repeat split; [exact Hlt|].
  now rewrite <- !app_assoc.
Qed.

Lemma run_stage_expiry (w : world resp) card_info card_form_frame tr tr' :
  let normalized :=
    _normalize_exp_parts (Some (default "" (card_info !! "exp_month")))
                         (Some (default "" (card_info !! "exp_year"))) in
  run w (stage_expiry card_info (Locator (InFrame card_form_frame) "input" All))
      tr = (Normal (), tr') ->
  tr' = tr ++ [ok (Click (Locator (InFrame card_form_frame) "input" (Nth 1))
                         false) ();
               ok (Fill (Locator (InFrame card_form_frame) "input" (Nth 1))
                        (normalized.1 +:+ normalized.2)) ()].
Proof.
  intros normalized H. apply run_click_fill in H. rewrite H.
  unfold exp_value. fold normalized. now destruct normalized.
Qed.

Lemma run_stage_cvv (w : world resp) card_info card_form_frame tr tr' :
  run w (stage_cvv card_info (Locator (InFrame card_form_frame) "input" All)) tr
  = (Normal (), tr') ->
  exists cvv,
    card_info !! "cvv" = Some cvv
    /\ tr' = tr ++ [ok (Click (Locator (InFrame card_form_frame) "input" (Nth 2))
                              false) ();
                    ok (Fill (Locator (InFrame card_form_frame) "input" (Nth 2))
                             cvv) ()].
Proof.
  unfold stage_cvv. intros H. rewrite run_bind in H.
  destruct (card_info !! "cvv") as [cvv|] eqn:Hc;
    [|now rewrite (run_getitem_none _ _ _ _ Hc) in H].
  rewrite (run_getitem _ _ _ _ _ Hc) in H.
  exists cvv. split; [reflexivity|].
  change (nth_of (Locator (InFrame card_form_frame) "input" All) 2)
    with (Locator (InFrame card_form_frame) "input" (Nth 2)) in H.
  set (input := Locator (InFrame card_form_frame) "input" (Nth 2)) in *.
  exec H.
  destruct (w (Click input false) tr) as [[m|m]|[]] eqn:E1;
    exec H; try discriminate H.
  rewrite (run_getitem _ _ _ _ _ Hc) in H. exec H.
  destruct (w (Fill input cvv) _) as [[m|m]|[]] eqn:E2;
    exec H; try discriminate H.
  injection H as <-. now rewrite <- !app_assoc.
Qed.

Lemma run_stage_zip (w : world resp) card_info card_form_frame input_count
    tr tr' :
  3 <= input_count ->
  run w (stage_zip card_info (Locator (InFrame card_form_frame) "input" All)
           input_count) tr = (Normal (), tr') ->
  exists zt,
    tr' = tr ++ zt
    /\ if Py.truthy (default "" (card_info !! "zip"))
       then zip_trace card_form_frame input_count
              (default "" (card_info !! "zip")) 3 zt
       else zt = [].
Proof.
  intros Hn. unfold stage_zip.
  destruct (Py.truthy (default "" (card_info !! "zip"))).
  - intros H. rewrite run_try_with, run_bind in H.
    destruct (run w (for_first _ _) tr) as [o tr1] eqn:E.
    apply run_zip_loop in E; [|lia].
    destruct o as [a|r|[m|m]]; try discriminate H.
    + destruct E as (zt & -> & Hzt). injection H as <-. now exists zt.
    + destruct E as (zt & -> & Hzt). injection H as <-. now exists zt.
  - intros [= <-]. exists []. now rewrite app_nil_r.
Qed.

(** C6 (amended): whenever the card-entry stage runs to its end, what it did
    to the page is: count the inputs of the frame (at least three); click
    the input at index 0 and fill it with the card number; click the input
    at index 1 and fill it with one string, the month followed at once by
    the year as [_normalize_exp_parts] returns them (two characters each
    when the month of the card has one or two digits and its year one, two,
    four or more); click the input at index 2 and fill it with the CVV; and,
    when the card has a postal code, go through the inputs from index 3 on
    and fill the code into the first one whose [type] is [tel] or that is
    the last input (the search ends early if a call on the way raises an
    [Exception]). *)
Theorem card_entry_fills_by_position (w : world resp) (card_info : dict)
    (card_form_frame : frame) (tr tr' : list (event resp)) :
  let input i := Locator (InFrame card_form_frame) "input" (Nth i) in
  let exp_month := default "" (card_info !! "exp_month") in
  let exp_year := default "" (card_info !! "exp_year") in
  let normalized := _normalize_exp_parts (Some exp_month) (Some exp_year) in
  let zip_code := default "" (card_info !! "zip") in
  run w (stage_card_entry card_info card_form_frame) tr = (Normal (), tr') ->
  exists number cvv input_count zt,
    card_info !! "number" = Some number
    /\ card_info !! "cvv" = Some cvv
    /\ 3 <= input_count
    /\ tr' = tr ++ [ok (Count (Locator (InFrame card_form_frame) "input" All))
                       input_count;
                    ok (Click (input 0) false) ();
                    ok (Fill (input 0) number) ();
                    ok (Click (input 1) false) ();
                    ok (Fill (input 1) (normalized.1 +:+ normalized.2)) ();
                    ok (Click (input 2) false) ();
                    ok (Fill (input 2) cvv) ()] ++ zt
    /\ (1 <= String.length (exp_digits (Some exp_month)) <= 2 ->
        1 <= String.length (exp_digits (Some exp_year)) <= 2
        \/ 4 <= String.length (exp_digits (Some exp_year)) ->
        String.length normalized.1 = 2 /\ String.length normalized.2 = 2)
    /\ if Py.truthy zip_code
       then zip_trace card_form_frame input_count zip_code 3 zt
       else zt = [].
Proof.
  intros input exp_month exp_year normalized zip_code H.
  unfold stage_card_entry in H.
  rewrite run_bind in H.
  destruct (run w (stage_card_number _ _) tr) as [[[all n]|r|e] tr1] eqn:E1;
    try discriminate H.
  apply run_stage_card_number in E1 as (number & Hnum & -> & Hn & ->).
  rewrite run_bind in H.
  destruct (run w (stage_expiry _ _) _) as [[[]|r|e] tr2] eqn:E2;
    try discriminate H.
  apply run_stage_expiry in E2 as ->.
  rewrite run_bind in H.
  destruct (run w (stage_cvv _ _) _) as [[[]|r|e] tr3] eqn:E3;
    try discriminate H.
  apply run_stage_cvv in E3 as (cvv & Hcvv & ->).
  apply run_stage_zip in H as (zt & -> & Hzt); [|exact Hn].
  exists number, cvv, n, zt. repeat split; try assumption.
  - now rewrite <- !app_assoc.
  - now apply normalize_lengths.
  - now apply normalize_lengths.
Qed.

(** ** [check_and_login] *)

Section Interrupts.
Context {call : Type} {resp : call -> Type}.





End Interrupts.






(** ** The calls a program makes *)

Section CallsLemmas.
Context {call : Type} {resp : call -> Type}.

Lemma calls_weaken {A} (P Q : call -> Prop) (p : prog resp A) :
  (forall c, P c -> Q c) -> calls P p -> calls Q p.
Proof.
  intros HPQ. induction p as [o|c k IH]; [exact id|].
  intros [Hc Hk]. split; [now apply HPQ | intros r; apply IH, Hk].
Qed.

Lemma calls_bind {A B} (P : call -> Prop) (p : prog resp A)
    (f : A -> prog resp B) :
  calls P p -> (forall a, calls P (f a)) -> calls P (bind p f).
Proof.
  intros Hp Hf. induction p as [[a|r|e]|c k IH]; simpl; auto.
  destruct Hp as [Hc Hk]. split; [exact Hc | intros r; apply IH, Hk].
Qed.

Lemma calls_try_with {A} (P : call -> Prop) (catches : exn -> bool)
    (p : prog resp A) (h : exn -> prog resp A) :
  calls P p -> (forall e, calls P (h e)) -> calls P (try_with catches p h).
Proof.
  intros Hp Hh. induction p as [[a|r|e]|c k IH]; simpl; auto.
  - destruct (catches e); [apply Hh | exact I].
  - destruct Hp as [Hc Hk]. split; [exact Hc | intros r; apply IH, Hk].
Qed.

Lemma calls_try_finally {A} (P : call -> Prop) (p : prog resp A)
    (fin : prog resp unit) :
  calls P p -> calls P fin -> calls P (try_finally p fin).
Proof.
  intros Hp Hfin. induction p as [o|c k IH]; simpl.
  - apply calls_bind; [exact Hfin | intros; exact I].
  - destruct Hp as [Hc Hk]. split; [exact Hc | intros r; apply IH, Hk].
Qed.

Lemma calls_invoke (P : call -> Prop) (p : prog resp unit) :
  calls P p -> calls P (invoke p).
Proof.
  induction p as [[a|r|e]|c k IH]; simpl; auto.
  intros [Hc Hk]. split; [exact Hc | intros r; apply IH, Hk].
Qed.

Lemma calls_for_first {X A} (P : call -> Prop) (xs : list X)
    (body : X -> prog resp (option A)) :
  (forall x, calls P (body x)) -> calls P (for_first xs body).
Proof.
  intros Hbody. induction xs as [|x xs IH]; [exact I|].
  simpl. apply calls_bind; [apply Hbody | intros [a|]; [exact I | exact IH]].
Qed.

Lemma calls_perform (P : call -> Prop) (c : call) :
  P c -> calls P (@perform call resp c).
Proof. intros Hc. split; [exact Hc | now intros [e|v]]. Qed.

Lemma calls_run {A} (P : call -> Prop) (p : prog resp A) (w : world resp) tr :
  calls P p ->
  exists ext, (run w p tr).2 = tr ++ ext /\ Forall (fun ev => P (projT1 ev)) ext.
Proof.
  revert tr; induction p as [o|c k IH]; intros tr Hp.
  - exists []. split; [simpl; now rewrite app_nil_r | constructor].
  - destruct Hp as [Hc Hk]. simpl.
    destruct (IH (w c tr) (tr ++ [existT c (w c tr)]) (Hk _)) as (ext & -> & Hext).
    exists (existT c (w c tr) :: ext). split; [now rewrite <- app_assoc|].
    constructor; [exact Hc | exact Hext].
Qed.

Lemma ends_try_finally {A} (Q : outcome A -> Prop) (p : prog resp A)
    (fin : prog resp unit) :
  ends Q p -> ends (fun o => match o with
                             | Normal _ => True
                             | Return r => Q (Return r)
                             | Raise e => Q (Raise e)
                             end) fin ->
  ends Q (try_finally p fin).
Proof.
  intros Hp Hfin. induction p as [o|c k IH]; simpl in *; [|auto].
  induction fin as [[a|r|e]|c k IH]; simpl in *; auto.
Qed.

Lemma ends_perform (c0 : call) (Q : outcome (resp c0) -> Prop) :
  (forall v, Q (Normal v)) -> (forall e, Q (Raise e)) ->
  ends Q (@perform call resp c0).
Proof. intros Hn He [e|v]; simpl; auto. Qed.

End CallsLemmas.

Lemma calls_on_page {A} (P : run_call -> Prop) (p : page_prog A) :
  (forall c, P (OnPage c)) -> calls P (on_page p).
Proof.
  intros HP. induction p as [o|c k IH]; simpl; [exact I|].
  split; [apply HP | exact IH].
Qed.

Lemma ends_on_page {A} (Q : outcome A -> Prop) (p : page_prog A) :
  ends Q p -> ends Q (on_page p).
Proof. induction p as [o|c k IH]; simpl; auto. Qed.

Ltac by_perform :=
  match goal with
  | |- calls ?P (@perform _ ?resp ?c) => refine (@calls_perform _ resp P c _)
  end.

(** The calls of a program, found by going through it. *)
Ltac solve_calls :=
  repeat first
    [ exact I
    | match goal with
      | |- calls ?P (@perform _ ?resp ?c) =>
          refine (@calls_perform _ resp P c _); repeat split; reflexivity
      end
    | apply calls_on_page; intros; repeat split; reflexivity
    | apply calls_invoke
    | apply calls_try_finally
    | apply calls_for_first; intros
    | apply calls_bind; [|intros]
    | apply calls_try_with; [|intros]
    | match goal with
      | |- calls _ (if ?b then _ else _) => destruct b
      | |- calls _ (match ?x with _ => _ end) => destruct x
      end ].

(** ** The card form is not touched before its stage *)











(** ** The account that already has a card *)

Lemma run_mark_subscribed (w : world resp) (account_info : option dict) tr :
  run w (mark_subscribed account_info) tr =
  ((if has_email account_info
    then match w (MoveToSubscribed (account_line account_info)) tr with
         | inl e => Raise e
         | inr _ => Normal ()
         end
    else Normal ()),
   tr ++ store_event w account_info tr).
Proof.
  unfold mark_subscribed, store_event. destruct (has_email account_info).
  - exec_goal.
    now destruct (w (MoveToSubscribed (account_line account_info)) tr) as [e|[]].
  - simpl. now rewrite app_nil_r.
Qed.

Section ExistingCard.
Variable DEFAULT_CARD : dict.
Variable w : world resp.
Implicit Types (tr : list (event resp)) (r : result).

(** From the check of the existing card, a [return] is the result of the
    run. *)
Lemma existing_check_returns card_info account_info tr0 tr r tr' :
  at_existing_check w account_info tr0 tr ->
  run w (verify_existing_subscribe iframe account_info) tr = (Return r, tr') ->
  run w (auto_bind_card DEFAULT_CARD card_info account_info) tr0
  = (Normal (Some r), tr').
Proof.
  intros (tr1 & button & tr2 & Hbefore & Hfind & Hclick) Hverify.
  apply return_before_card_form. unfold to_card_form, stage_precheck.
  unfold iframe in *.
  now rewrite run_bind, Hbefore, run_bind, !run_try_with, run_bind, Hfind,
    run_bind, Hclick, Hverify.
Qed.




End ExistingCard.



(** ** No "Subscribed" marker *)

Section NoMarker.
Variable DEFAULT_CARD : dict.
Variable w : world resp.
Implicit Types (tr : list (event resp)) (r : result).

(** From the last check, a [return] is the result of the run. *)
Lemma final_check_returns card_info account_info tr0 tr r tr' :
  at_final_check w (default DEFAULT_CARD card_info) account_info tr0 tr ->
  run w (verify_subscribed account_info) tr = (Return r, tr') ->
  run w (auto_bind_card DEFAULT_CARD card_info account_info) tr0
  = (Normal (Some r), tr').
Proof.
  intros (f & tr1 & tr2 & tr3 & button & tr4
          & Hform & Hentry & Hsave & Hshot & Hfind & Hclick) Hverify.
  eapply return_from_card_form; [exact Hform|].
  unfold from_card_form, stage_subscribe. unfold ok in Hfind.
  rewrite run_bind, Hentry, run_bind, Hsave, run_bind.
  exec_goal. norm. rewrite Hshot. exec_goal.
  now rewrite Hfind, run_bind, Hclick, Hverify.
Qed.

(** C5 (amended): (1) in the pre-check, when the scan after the click finds
    neither a "Subscribed" nor an "Error" marker, the run returns success
    ("Already bound"); (2) after the card was saved and the subscribe button
    clicked, when the last scan finds no "Subscribed" marker, the run returns
    success with the weaker message, and before it does it calls
    [move_to_subscribed] once when [account_info] carries a non-empty e-mail
    address and not at all otherwise (provided the store lets no exception
    through that is not an [Exception]). *)
Theorem no_marker_is_success card_info account_info tr0 :
  (forall tr tr1 tr2,
      at_existing_check w account_info tr0 tr ->
      run w (scan_marker subscribed_selectors [iframe; Page]) tr
      = (Normal false, tr1) ->
      run w (scan_marker error_selectors [iframe; Page]) tr1
      = (Normal false, tr2) ->
      run w (auto_bind_card DEFAULT_CARD card_info account_info) tr0
      = (Normal (Some (true, "使用已有卡订阅成功 (Already bound)")), tr2))
  /\ (forall tr tr',
      at_final_check w (default DEFAULT_CARD card_info) account_info tr0 tr ->
      run w final_scan tr = (Normal None, tr') ->
      store_tame w account_info tr' ->
      run w (auto_bind_card DEFAULT_CARD card_info account_info) tr0
      = (Normal (Some (true, "绑卡并订阅成功 (Subscribed)")),
         tr' ++ store_event w account_info tr')
      /\ store_updates (store_event w account_info tr')
         = (if has_email account_info then [account_line account_info] else [])).
Proof.
  split.
  - intros tr tr1 tr2 Hat Hs He.
    eapply existing_check_returns; [exact Hat|].
    unfold verify_existing_subscribe.
    now rewrite run_try_with, run_bind, Hs, run_bind, He.
  - intros tr tr' Hat Hscan Htame. split.
    + eapply final_check_returns; [exact Hat|].
      unfold verify_subscribed.
      rewrite run_try_with, run_bind, Hscan. cbv beta iota.
      rewrite run_bind, run_mark_subscribed.
      unfold store_tame in Htame. unfold store_event.
      destruct (has_email account_info); [|reflexivity].
      destruct (w (MoveToSubscribed (account_line account_info)) tr')
        as [[m|m]|[]] eqn:E; try reflexivity.
      now destruct (Htame m).
    + unfold store_event. now destruct (has_email account_info).
Qed.

End NoMarker.

(** C5 at a page where the subscribe button of the pre-check leads to no
    marker at all, and at a page where the card form is filled and saved and
    no "Subscribed" marker follows the click. *)
Lemma no_marker_is_success_witness :
  run (page_world (bound_page false)) (auto_bind_card ∅ None (Some an_account)) []
  = (Normal (Some (true, "使用已有卡订阅成功 (Already bound)")),
     (run (page_world (bound_page false))
        (to_existing_check (Some an_account);;
         scan_marker subscribed_selectors [iframe; Page];;
         scan_marker error_selectors [iframe; Page]) []).2)
  /\ exists tr,
      run (page_world (form_page 3 logged_in))
        (auto_bind_card ∅ (Some a_card) (Some an_account)) []
      = (Normal (Some (true, "绑卡并订阅成功 (Subscribed)")), tr)
      /\ store_updates tr = ["a@x.com----pw----rec@x.com----JBSW Y3DP"].
Proof.
  split.
  - set (w := page_world (bound_page false)).
    set (acc := Some an_account).
    set (tr := (run w (to_existing_check acc) []).2).
    set (tr1 := (run w (scan_marker subscribed_selectors [iframe; Page]) tr).2).
    destruct (no_marker_is_success ∅ w None acc []) as [H _].
    rewrite (H tr tr1 (run w (scan_marker error_selectors [iframe; Page]) tr1).2).
    + vm_compute. reflexivity.
    + exists (run w (before_precheck acc) []).2,
        (Locator iframe (has_text "span.UywwFc-vQzf8d" "Subscribe") First),
        (run w (find_existing_subscribe iframe) (run w (before_precheck acc) []).2).2.
      split; [|split]; vm_compute; reflexivity.
    + vm_compute. reflexivity.
    + vm_compute. reflexivity.
  - set (w := page_world (form_page 3 logged_in)).
    set (acc := Some an_account).
    set (tr := (run w (to_final_check a_card acc) []).2).
    set (tr' := (run w final_scan tr).2).
    destruct (no_marker_is_success ∅ w (Some a_card) acc []) as [_ H].
    destruct (H tr tr') as [Hrun Hupd].
    + set (tr1 := (run w (to_card_form acc) []).2).
      set (tr2 := (run w (stage_card_entry a_card card_frame) tr1).2).
      set (tr3 := (run w (stage_save card_frame) tr2).2).
      set (tr4 := (run w find_subscribe_button
                     (tr3 ++ [ok (Screenshot "step7_before_subscribe.png") ()])).2).
      exists card_frame, tr1, tr2, tr3,
        (Locator iframe (has_text "button" "Start") First), tr4.
      repeat split; vm_compute; reflexivity.
    + vm_compute. reflexivity.
    + intros m. discriminate.
    + eexists. split; [exact Hrun|]. vm_compute. reflexivity.
Defined.

(** C5 as stated fails: the card is saved, the click is followed by no
    "Subscribed" marker, the run returns success, and, there being no account
    information, the store is not told. *)
Lemma no_marker_without_store_update :
  let w := page_world (form_page 3 logged_in) in
  let tr := (run w (to_final_check a_card None) []).2 in
  at_final_check w a_card None [] tr
  /\ (run w final_scan tr).1 = Normal None
  /\ (run w (auto_bind_card ∅ (Some a_card) None) []).1
     = Normal (Some (true, "绑卡并订阅成功 (Subscribed)"))
  /\ store_updates (run w (auto_bind_card ∅ (Some a_card) None) []).2 = [].
Proof.
  intros w tr. split; [|split; [|split]]; try (vm_compute; reflexivity).
  set (tr1 := (run w (to_card_form None) []).2).
  set (tr2 := (run w (stage_card_entry a_card card_frame) tr1).2).
  set (tr3 := (run w (stage_save card_frame) tr2).2).
  set (tr4 := (run w find_subscribe_button
                 (tr3 ++ [ok (Screenshot "step7_before_subscribe.png") ()])).2).
  exists card_frame, tr1, tr2, tr3,
    (Locator iframe (has_text "button" "Start") First), tr4.
  repeat split; vm_compute; reflexivity.
Qed.

(** C7 at card forms of two inputs and of none, and at a card without a
    number. *)
Lemma too_few_inputs_is_fatal_witness :
  let all_inputs := Locator (InFrame card_frame) "input" All in
  (let w := page_world (form_page 2 logged_in) in
   run w (auto_bind_card ∅ (Some a_card) None) []
   = (Normal (Some (false, "输入框数量不足，只找到 2 个")),
      (run w (to_card_form None) []).2 ++ [ok (Count all_inputs) 2]))
  /\ (let w := page_world (form_page 0 logged_in) in
      run w (auto_bind_card a_card None None) []
      = (Normal (Some (false, "输入框数量不足，只找到 0 个")),
         (run w (to_card_form None) []).2 ++ [ok (Count all_inputs) 0]))
  /\ (let w := page_world (form_page 2 logged_in) in
      run w (auto_bind_card ∅ (Some a_card_without_number) None) []
      = (Normal (Some (false, "绑卡错误: 'number'")),
         (run w (to_card_form None) []).2)).
Proof.
  intros all_inputs. split; [|split]; intros w.
  - destruct (too_few_inputs_is_fatal ∅ w (Some a_card) None [] card_frame
                (run w (to_card_form None) []).2) as [H _].
    + vm_compute. reflexivity.
    + apply (H "4242424242424242" 2); [vm_compute; reflexivity | reflexivity | lia].
  - destruct (too_few_inputs_is_fatal a_card w None None [] card_frame
                (run w (to_card_form None) []).2) as [H _].
    + vm_compute. reflexivity.
    + apply (H "4242424242424242" 0); [vm_compute; reflexivity | reflexivity | lia].
  - destruct (too_few_inputs_is_fatal ∅ w (Some a_card_without_number) None []
                card_frame (run w (to_card_form None) []).2) as [_ H].
    + vm_compute. reflexivity.
    + apply H. vm_compute. reflexivity.
Defined.

(** C7 as stated fails: the frame of the card form holds two inputs, the
    card has no number, and the run fails without counting the inputs: the
    reason it gives is the missing key. *)
Lemma too_few_inputs_not_reported :
  let w := page_world (form_page 2 logged_in) in
  let '(o, tr) := run w (auto_bind_card ∅ (Some a_card_without_number) None) [] in
  (run w (to_card_form None) []).1 = Normal card_frame
  /\ page_answer (form_page 2 logged_in)
       (Count (Locator (InFrame card_frame) "input" All)) = inr 2
  /\ o = Normal (Some (false, "绑卡错误: 'number'"))
  /\ input_calls tr = 0.
Proof. vm_compute. repeat split; reflexivity. Qed.

(** C6 at a card form of five inputs of which the last is of type [tel]:
    number, expiry and CVV go to the inputs 0, 1 and 2, the postal code to
    input 4, input 3 being passed over. *)
Lemma card_entry_fills_by_position_witness :
  let w := page_world five_inputs_page in
  let input i := Locator (InFrame card_frame) "input" (Nth i) in
  exists input_count zt,
    (run w (stage_card_entry a_card card_frame) []).2
    = [ok (Count (Locator (InFrame card_frame) "input" All)) input_count;
       ok (Click (input 0) false) ();
       ok (Fill (input 0) "4242424242424242") ();
       ok (Click (input 1) false) ();
       ok (Fill (input 1) "0326") ();
       ok (Click (input 2) false) ();
       ok (Fill (input 2) "123") ()] ++ zt
    /\ zip_trace card_frame input_count "10001" 3 zt
    /\ fills (run w (stage_card_entry a_card card_frame) []).2
       = [(input 0, "4242424242424242"); (input 1, "0326"); (input 2, "123");
          (input 4, "10001")].
Proof.
  intros w input.
  destruct (card_entry_fills_by_position w a_card card_frame []
              (run w (stage_card_entry a_card card_frame) []).2)
    as (number & cvv & n & zt & Hnumber & Hcvv & Hn & Htr & Hexp & Hzip).
  - vm_compute. reflexivity.
  - injection Hnumber as <-. injection Hcvv as <-.
    exists n, zt. split; [exact Htr | split; [exact Hzip|]].
    vm_compute. reflexivity.
Defined.

(** C6 as stated fails: with a month of three digits the stage runs to its
    end and the input at index 1 is filled with five characters, which are
    not a two-digit month followed by a two-digit year. *)
Lemma card_entry_expiry_of_five_characters :
  let w := page_world five_inputs_page in
  let input i := Locator (InFrame card_frame) "input" (Nth i) in
  let '(o, tr) := run w (stage_card_entry a_card_of_three_digit_month card_frame) [] in
  a_card_of_three_digit_month !! "exp_month" = Some "123"
  /\ a_card_of_three_digit_month !! "exp_year" = Some "26"
  /\ o = Normal ()
  /\ fills tr = [(input 0, "4242424242424242"); (input 1, "12326");
                 (input 2, "123"); (input 4, "10001")]
  /\ String.length "12326" = 5.
Proof. vm_compute. repeat split; reflexivity. Qed.

(** ** The runners and the browser session *)

Lemma sessions_app (tr ext : list (event run_resp)) :
  sessions (tr ++ ext) = sessions tr ++ sessions ext.
Proof. apply omap_app. Qed.

Lemma closed_app (tr ext : list (event run_resp)) :
  closed (tr ++ ext) = closed tr ++ closed ext.
Proof. apply omap_app. Qed.

Lemma writes_app (tr ext : list (event run_resp)) :
  writes (tr ++ ext) = writes tr ++ writes ext.
Proof. apply omap_app. Qed.

Lemma session_free_trace (ext : list (event run_resp)) :
  Forall (fun ev => session_free (projT1 ev)) ext ->
  sessions ext = [] /\ closed ext = [].
Proof.
  induction 1 as [|[c r] ext [Ho Hc] _ [IH1 IH2]]; [now split|].
  simpl in Ho, Hc. unfold sessions, closed in *.
  destruct c; try discriminate Ho; try discriminate Hc; now split.
Qed.

Lemma write_free_trace (ext : list (event run_resp)) :
  Forall (fun ev => write_free (projT1 ev)) ext -> writes ext = [].
Proof.
  induction 1 as [|[c r] ext Hw _ IH]; [reflexivity|].
  unfold write_free in Hw. simpl in Hw. unfold writes in *. simpl.
  destruct c; try discriminate Hw; exact IH.
Qed.

Section RunnerCalls.
Variable DEFAULT_CARD : dict.

Lemma get_page_calls (P : run_call -> Prop) :
  P BrowserContexts -> P ContextPages -> P NewPage -> calls P get_page.
Proof.
  intros H1 H2 H3. unfold get_page, do.
  apply calls_bind; [now by_perform | intros n].
  destruct (n =? 0); [exact I|].
  apply calls_bind; [now by_perform | intros m].
  destruct (m =? 0); [now by_perform | exact I].
Qed.

Lemma bind_on_page_calls (P : run_call -> Prop) card_info account_info lc :
  (forall c, P (OnPage c)) -> P BrowserContexts -> P ContextPages ->
  P NewPage -> (forall m, P (LogCallback m)) -> (forall u, P (Goto u)) ->
  calls P (bind_on_page DEFAULT_CARD card_info account_info lc).
Proof.
  intros Hpage H1 H2 H3 Hlog Hgoto. unfold bind_on_page, log, do, unpack.
  apply calls_bind; [now apply get_page_calls | intros _].
  apply calls_bind; [destruct lc; [now by_perform | exact I] | intros _].
  apply calls_bind; [now by_perform | intros _].
  apply calls_bind; [now apply calls_on_page | intros [r|]; exact I].
Qed.

Lemma bind_in_session_session_free card_info account_info lc ws_endpoint :
  calls session_free
    (bind_in_session DEFAULT_CARD card_info account_info lc ws_endpoint).
Proof.
  unfold bind_in_session, with_playwright, drive_page, record_bind, log, do.
  apply calls_try_with; [|intros; exact I].
  apply calls_bind; [now by_perform | intros _].
  apply calls_try_finally; [|now by_perform].
  apply calls_bind; [now by_perform | intros _].
  apply calls_try_finally; [|solve_calls].
  apply calls_bind; [apply bind_on_page_calls; now intros | intros [s m]].
  solve_calls.
Qed.

Lemma test_bind_card_never_closes browser_id account_info :
  calls (fun c => is_close c = false)
    (test_bind_card_with_browser DEFAULT_CARD browser_id account_info).
Proof.
  unfold test_bind_card_with_browser, with_playwright, do, unpack.
  apply calls_invoke.
  apply calls_bind; [solve_calls | intros account].
  apply calls_bind; [solve_calls | intros res].
  destruct (negb (open_success res)); [exact I|].
  apply calls_bind; [solve_calls | intros ws].
  apply calls_bind; [solve_calls | intros _].
  apply calls_try_finally; [|solve_calls].
  apply calls_try_finally; [|exact I].
  apply calls_try_with; [|intros; exact I].
  apply calls_bind; [solve_calls | intros _].
  apply calls_bind; [now apply get_page_calls | intros _].
  solve_calls.
Qed.

End RunnerCalls.

Ltac exec_run :=
  repeat (rewrite ?run_bind, ?run_try_with;
          unfold do, await, perform, ret, raise, return_;
          cbn [run snd negb]; cbv beta iota).

Lemma no_ws_spec (res : open_result) :
  no_ws res = negb (Py.truthy (default "" (open_ws res))).
Proof.
  unfold no_ws, open_ws. destruct (open_data res) as [[[|c ws]|]|]; reflexivity.
Qed.

(** The session is released when the block under the [finally] of
    [bind_card_sync] is left, however it is left. *)
Lemma released_after_session (close_after : bool) (browser_id : string)
    (w : world run_resp) (p : run_prog unit) (tr : list (event run_resp))
    (res : open_result) :
  calls session_free p ->
  sessions tr = [(browser_id, Some res)] -> closed tr = [] ->
  open_success res = true -> no_ws res = false ->
  released browser_id close_after
    (run w (try_finally p
              (if close_after then do (CloseBrowser browser_id) else ret ())) tr).2.
Proof.
  intros Hp Hs Hc Hsucc Hws. rewrite run_try_finally.
  destruct (calls_run session_free p w tr Hp) as (ext & Hext & Hfree).
  destruct (run w p tr) as [o tr1]. simpl in Hext. subst tr1.
  apply session_free_trace in Hfree as [Hs' Hc'].
  assert (Hs1 : sessions (tr ++ ext) = [(browser_id, Some res)])
    by (now rewrite sessions_app, Hs, Hs').
  assert (Hc1 : closed (tr ++ ext) = []) by (now rewrite closed_app, Hc, Hc').
  destruct close_after.
  - exec_run.
    assert (Hrel : forall r,
      released browser_id true
        ((tr ++ ext) ++ [existT (CloseBrowser browser_id) r : event run_resp])).
    { intros r. unfold released. rewrite sessions_app, Hs1. simpl.
      split; [reflexivity|]. rewrite Hsucc. simpl.
      split; [now rewrite closed_app, Hc1|].
      now exists (tr ++ ext), r. }
    destruct (w (CloseBrowser browser_id) (tr ++ ext)) as [e|[]];
      cbn [run]; apply Hrel.
  - assert (Hrel : released browser_id false (tr ++ ext)).
    { unfold released. rewrite Hs1. split; [reflexivity|].
      now rewrite Hsucc, Hws. }
    cbn [run ret]. now destruct o.
Qed.

(** C3 (amended): in every run of [bind_card_sync], on every way out, a
    failure or not: [openBrowser] is called at most once, for the browser of
    the run; when it answered a success and the caller left [close_after]
    set (or the answer carries no WebSocket endpoint), [closeBrowser] is
    called exactly once, for that same browser, as the last call of the run,
    the session having been opened before it; when [openBrowser] raised or
    did not answer a success, or when the caller cleared [close_after] (and
    there is an endpoint), [closeBrowser] is not called.
    [test_bind_card_with_browser] never calls [closeBrowser]: the browser
    stays open, and no flag decides it. *)
Theorem session_release (DEFAULT_CARD : dict) (w : world run_resp)
    (browser_id : string) (card_info account_info : option dict)
    (log_callback close_after : bool) :
  let tr := (run w (bind_card_sync DEFAULT_CARD browser_id card_info
                      log_callback close_after) []).2 in
  let tr' := (run w (test_bind_card_with_browser DEFAULT_CARD browser_id
                       account_info) []).2 in
  match sessions tr with
  | [] => closed tr = []
  | [(opened_id, answer)] =>
      opened_id = browser_id
      /\ match answer with
         | Some res =>
             if open_success res
                && (close_after
                    || match open_data res with
                       | Some (Some ws) => bool_decide (ws = EmptyString)
                       | _ => true
                       end)
             then closed tr = [browser_id]
                  /\ exists before r,
                       tr = before
                            ++ [existT (CloseBrowser browser_id) r : event run_resp]
                       /\ closed before = []
                       /\ sessions before = [(browser_id, Some res)]
             else closed tr = []
         | None => closed tr = []
         end
  | _ => False
  end
  /\ closed tr' = [].
Proof.
  intros tr tr'. split.
  - assert (Hno_ws : forall res,
              match open_data res with
              | Some (Some ws) => bool_decide (ws = EmptyString)
              | _ => true
              end = no_ws res).
    { intros res. unfold no_ws. destruct (open_data res) as [[[|c ws]|]|];
        reflexivity. }
    enough (H : released browser_id close_after tr).
    { unfold released in H. destruct (sessions tr) as [|[b [res|]] [|? ?]];
        try exact H. now rewrite Hno_ws. }
    subst tr. clear tr' Hno_ws.
    unfold bind_card_sync. rewrite run_invoke.
    match goal with
    | |- released _ _ (match ?x with _ => _ end).2 =>
        enough (released browser_id close_after x.2)
          by (now destruct x as [[a|r|e] t])
    end.
    unfold log. exec_run.
    destruct (w (GetBrowserInfo browser_id) []) as [e|info]; exec_run;
      [reflexivity|].
    destruct (dict_falsy info); exec_run; [reflexivity|].
    set (account := account_of_parts _).
    match goal with
    | |- context [bind (Call (OpenBrowser browser_id) ?k) ?f] =>
        set (K := bind (Call (OpenBrowser browser_id) k) f)
    end.
    assert (Hopen : forall tr, sessions tr = [] -> closed tr = [] ->
                               released browser_id close_after (run w K tr).2).
    { intros tr Hs Hc. subst K. exec_run.
      destruct (w (OpenBrowser browser_id) tr) as [e|res] eqn:E; exec_run.
      - unfold released. rewrite sessions_app, closed_app, Hs, Hc. now split.
      - destruct (open_success res) eqn:Hsucc; exec_run.
        + destruct (Py.truthy (default "" (open_ws res))) eqn:Hws; exec_run.
          * apply released_after_session with (res := res).
            -- apply bind_in_session_session_free.
            -- rewrite sessions_app, Hs. reflexivity.
            -- rewrite closed_app, Hc. reflexivity.
            -- exact Hsucc.
            -- rewrite no_ws_spec. now rewrite Hws.
          * assert (Hno : no_ws res = true) by (rewrite no_ws_spec; now rewrite Hws).
            assert (Hrel : forall r,
              released browser_id close_after
                ((tr ++ [existT (OpenBrowser browser_id) (inr res) : event run_resp])
                 ++ [existT (CloseBrowser browser_id) r : event run_resp])).
            { intros r. unfold released.
              rewrite !sessions_app, Hs. simpl. split; [reflexivity|].
              rewrite Hsucc, Hno, orb_true_r. simpl.
              split; [now rewrite !closed_app, Hc|].
              eexists _, r. split; [reflexivity|].
              split; [now rewrite closed_app, Hc|].
              now rewrite sessions_app, Hs. }
            match goal with
            | |- context [w (CloseBrowser browser_id) ?t] =>
                destruct (w (CloseBrowser browser_id) t) as [e|[]]
            end; exec_run; apply Hrel.
        + unfold released. rewrite sessions_app, closed_app, Hs, Hc. simpl.
          split; [reflexivity|]. now rewrite Hsucc.
    }
    clearbody K.
    destruct log_callback; exec_run.
    + match goal with
      | |- context [w (LogCallback ?m) ?t] =>
          destruct (w (LogCallback m) t) as [e|[]]
      end; exec_run; [reflexivity|].
      match goal with
      | |- context [w (LogCallback ?m) ?t] =>
          destruct (w (LogCallback m) t) as [e|[]]
      end; exec_run; [reflexivity|].
      now apply Hopen.
    + now apply Hopen.
  - subst tr'.
    destruct (calls_run _ _ w [] (test_bind_card_never_closes DEFAULT_CARD
                                    browser_id account_info))
      as (ext & -> & Hext).
    simpl. unfold closed. induction Hext as [|[c r] ext Hev _ IH]; [reflexivity|].
    simpl in *. destruct c; try discriminate Hev; exact IH.
Qed.

(** C3 at a browser that opens and cannot be reached: [bind_card_sync]
    fails and closes the browser it opened, as the last thing it does. *)
Lemma session_release_witness :
  let tr := (run (run_world unreachable_browser)
               (bind_card_sync a_card "94b7f635" None true true) []).2 in
  sessions tr = [("94b7f635", Some a_session)]
  /\ closed tr = ["94b7f635"]
  /\ last tr = Some (existT (CloseBrowser "94b7f635") (inr ()) : event run_resp).
Proof.
  intros tr.
  pose proof (session_release a_card (run_world unreachable_browser) "94b7f635"
                None None true true) as [H _].
  cbv zeta in H. fold tr in H.
  assert (Hs : sessions tr = [("94b7f635", Some a_session)])
    by (vm_compute; reflexivity).
  rewrite Hs in H. destruct H as (_ & Hc & before & r & Htr & _).
  split; [exact Hs | split; [exact Hc|]].
  vm_compute. reflexivity.
Defined.

(** C3 as stated fails: [test_bind_card_with_browser] opens the browser, the
    connection to it fails, the run ends with a failure, and [closeBrowser]
    was not called.  Nor is it called when the answer of [openBrowser] has
    no ['data'] and the run ends with the [KeyError]. *)
Lemma test_bind_card_leaves_session_open :
  (let '(o, tr) := run (run_world unreachable_browser)
                       (test_bind_card_with_browser a_card "94b7f635" None) [] in
   o = Normal (Some (false, "connect ECONNREFUSED 127.0.0.1:9222"))
   /\ sessions tr = [("94b7f635", Some a_session)]
   /\ open_success a_session = true
   /\ closed tr = [])
  /\ (let '(o, tr) := run (run_world browser_without_data)
                          (test_bind_card_with_browser a_card "94b7f635" None) [] in
      o = Raise (Exception "'data'")
      /\ sessions tr = [("94b7f635", Some a_session_without_data)]
      /\ closed tr = []).
Proof. vm_compute. repeat split; reflexivity. Qed.

(** ** The record of a successful bind *)

Section Records.
Context {call : Type} {resp : call -> Type}.

Lemma no_return_bind {A B} (p : prog resp A) (f : A -> prog resp B) :
  ends no_return p -> (forall a, ends no_return (f a)) ->
  ends no_return (bind p f).
Proof.
  intros Hp Hf. apply ends_bind_gen. revert Hp. apply ends_weaken.
  intros [a|r|e]; simpl; auto.
Qed.

Lemma no_return_perform (c : call) : ends no_return (@perform call resp c).
Proof. intros [e|v]; exact I. Qed.

Lemma no_return_invoke (p : prog resp unit) : ends no_return (invoke p).
Proof. apply ends_invoke, ends_True. now intros [a|r|e]. Qed.

Lemma no_return_try_with {A} catches (p : prog resp A) (h : exn -> prog resp A) :
  ends no_return p -> (forall e, ends no_return (h e)) ->
  ends no_return (try_with catches p h).
Proof.
  intros Hp Hh. apply ends_try_with; [|intros; apply Hh].
  revert Hp. apply ends_weaken. intros [a|r|e]; simpl; auto.
  now destruct (catches e).
Qed.

Lemma no_return_try_finally {A} (p : prog resp A) (fin : prog resp unit) :
  ends no_return p -> ends no_return fin -> ends no_return (try_finally p fin).
Proof.
  intros Hp Hfin. apply ends_try_finally; [exact Hp|].
  revert Hfin. apply ends_weaken. now intros [a|r|e].
Qed.

(** A [return] that comes out of [try: p finally: fin] was executed by [p],
    when [fin] has no [return] of its own, and [fin] then ran to its end. *)
Lemma run_try_finally_return {A} (w : world resp) (p : prog resp A)
    (fin : prog resp unit) tr r tr' :
  ends no_return fin ->
  run w (try_finally p fin) tr = (Return r, tr') ->
  exists tr1, run w p tr = (Return r, tr1) /\ run w fin tr1 = (Normal (), tr').
Proof.
  intros Hfin H. rewrite run_try_finally in H.
  destruct (run w p tr) as [o tr1] eqn:Ep.
  pose proof (ends_run _ _ w tr1 Hfin) as Hnr.
  destruct (run w fin tr1) as [[[]|r'|e] tr2] eqn:Ef; simpl in Hnr.
  - injection H as -> ->. now exists tr1.
  - destruct Hnr.
  - discriminate H.
Qed.

End Records.

Lemma writes_unchanged {A} (w : world run_resp) (p : run_prog A) tr :
  calls write_free p -> writes (run w p tr).2 = writes tr.
Proof.
  intros Hp. destruct (calls_run write_free p w tr Hp) as (ext & -> & Hext).
  now rewrite writes_app, (write_free_trace _ Hext), app_nil_r.
Qed.

(** What a program that does not write adds to the trace. *)
Lemma run_write_free {A} (w : world run_resp) (p : run_prog A) tr o tr' :
  calls write_free p -> run w p tr = (o, tr') ->
  exists ext, tr' = tr ++ ext /\ writes ext = [].
Proof.
  intros Hp H. destruct (calls_run write_free p w tr Hp) as (ext & Hext & Hfree).
  rewrite H in Hext. exists ext. split; [exact Hext|].
  now apply write_free_trace.
Qed.

Lemma recorded_before (email : string) (card_info : option dict)
    (tr ext tr' : list (event run_resp)) :
  writes ext = [] -> recorded email card_info (tr ++ ext) tr' ->
  recorded email card_info tr tr'.
Proof.
  intros Hext (ts & before & after & -> & Hb & Ha).
  exists ts, (ext ++ before), after. split; [now rewrite <- !app_assoc|].
  split; [now rewrite writes_app, Hext, Hb | exact Ha].
Qed.

Lemma recorded_after (email : string) (card_info : option dict)
    (tr tr1 ext : list (event run_resp)) :
  recorded email card_info tr tr1 -> writes ext = [] ->
  recorded email card_info tr (tr1 ++ ext).
Proof.
  intros (ts & before & after & -> & Hb & Ha) Hext.
  exists ts, before, (after ++ ext). split; [now rewrite <- !app_assoc|].
  split; [exact Hb | now rewrite writes_app, Ha, Hext].
Qed.

Lemma run_record_bind (w : world run_resp) (card_info : option dict)
    (account_info : dict) (lc : bool) tr tr' :
  run w (record_bind card_info account_info lc) tr = (Normal (), tr') ->
  recorded (default "" (account_info !! "email")) card_info tr tr'.
Proof.
  unfold record_bind, log. intros H.
  fold (card_last4 card_info) in H.
  rewrite run_bind in H. unfold do at 1 in H. rewrite run_perform in H.
  destruct (w (OpenAppend _) tr) as [e|[]] eqn:E0; [discriminate H|].
  rewrite run_bind, run_try_finally, run_bind in H.
  unfold do at 1 in H. rewrite run_perform in H.
  destruct (w Now _) as [e|now] eqn:E1.
  - exec H. norm.
    match type of H with context [w FileClose ?t] =>
      destruct (w FileClose t) as [e'|[]] end; exec H; discriminate H.
  - exists now, []. exec H. norm.
    match type of H with context [w (FileWrite ?x) ?t] =>
      destruct (w (FileWrite x) t) as [e|[]] end; exec H.
    + match type of H with context [w FileClose ?t] =>
        destruct (w FileClose t) as [e'|[]] end; exec H; discriminate H.
    + match type of H with context [w FileClose ?t] =>
        destruct (w FileClose t) as [e'|[]] end; exec H; [discriminate H|].
      destruct lc; exec H.
      * match type of H with context [w (LogCallback ?x) ?t] =>
          destruct (w (LogCallback x) t) as [e'|[]] end; exec H;
          [discriminate H|].
        injection H as <-.
        exists [existT (LogCallback "已记录到 已绑卡号.txt") (inr ())
                : event run_resp].
        split; [|now split].
        unfold record_events, bind_record. now rewrite <- !app_assoc.
      * injection H as <-. exists []. split; [|now split].
        unfold record_events, bind_record. now rewrite <- !app_assoc, app_nil_r.
Qed.

Section BindRecord.
Variable DEFAULT_CARD : dict.
Variable w : world run_resp.
Implicit Types (tr : list (event run_resp)).

Lemma get_page_no_return : ends no_return get_page.
Proof.
  unfold get_page, do.
  apply no_return_bind; [apply no_return_perform | intros n].
  destruct (n =? 0); [exact I|].
  apply no_return_bind; [apply no_return_perform | intros m].
  destruct (m =? 0); [|exact I]. intros [e|v]; exact I.
Qed.

Lemma bind_on_page_no_return card_info account_info lc :
  ends no_return (bind_on_page DEFAULT_CARD card_info account_info lc).
Proof.
  unfold bind_on_page, log, do, unpack.
  apply no_return_bind; [apply get_page_no_return | intros _].
  apply no_return_bind; [destruct lc; [intros [e|v]|]; exact I | intros _].
  apply no_return_bind; [apply no_return_perform | intros _].
  apply no_return_bind; [apply ends_on_page, no_return_invoke | intros [r|]; exact I].
Qed.

Lemma record_bind_no_return card_info account_info lc :
  ends no_return (record_bind card_info account_info lc).
Proof.
  unfold record_bind, log, do.
  apply no_return_bind; [apply no_return_perform | intros _].
  apply no_return_bind; [|intros _; destruct lc; [intros [e|v]|]; exact I].
  apply no_return_try_finally; [|intros [e|v]; exact I].
  apply no_return_bind; [apply no_return_perform | intros ts].
  intros [e|v]; exact I.
Qed.

Lemma run_drive_page card_info account_info lc tr msg tr' :
  run w (drive_page DEFAULT_CARD card_info account_info lc) tr
  = (Return (true, msg), tr') ->
  recorded (default "" (account_info !! "email")) card_info tr tr'.
Proof.
  unfold drive_page. intros H. rewrite run_bind in H.
  pose proof (ends_run _ _ w tr
                (bind_on_page_no_return card_info account_info lc)) as Hnr.
  destruct (run w (bind_on_page _ _ _ _) tr) as [[[s m]|r|e] tr1] eqn:E1;
    simpl in Hnr; [|destruct Hnr|discriminate H].
  apply run_write_free in E1 as (ext & -> & Hext);
    [|apply bind_on_page_calls; now intros].
  rewrite run_bind in H. destruct s.
  - pose proof (ends_run _ _ w (tr ++ ext)
                  (record_bind_no_return card_info account_info lc)) as Hnr'.
    destruct (run w (record_bind _ _ _) (tr ++ ext)) as [[[]|r|e] tr2] eqn:E;
      simpl in Hnr'; [|destruct Hnr'|discriminate H].
    apply run_record_bind in E. injection H as <- <-.
    now apply (recorded_before _ _ _ ext).
  - discriminate H.
Qed.

Lemma run_bind_in_session card_info account_info lc ws_endpoint tr msg tr' :
  run w (bind_in_session DEFAULT_CARD card_info account_info lc ws_endpoint) tr
  = (Return (true, msg), tr') ->
  recorded (default "" (account_info !! "email")) card_info tr tr'.
Proof.
  unfold bind_in_session, with_playwright. intros H.
  rewrite run_try_with in H.
  match type of H with context [run w ?p tr] =>
    destruct (run w p tr) as [[[]|r|e] tr1] eqn:E end;
    [discriminate H| |destruct (catch_Exception e); discriminate H].
  injection H as -> ->.
  rewrite run_bind in E. unfold do at 1 in E. rewrite run_perform in E.
  destruct (w PlaywrightStart tr) as [e|[]]; [discriminate E|].
  apply run_try_finally_return in E as (tr2 & E & Hstop);
    [|unfold do; intros [e|v]; exact I].
  rewrite run_bind in E. unfold do at 1 in E. rewrite run_perform in E.
  destruct (w (ConnectOverCdp ws_endpoint) _) as [e|[]]; [discriminate E|].
  apply run_try_finally_return in E as (tr3 & E & Hclose);
    [|apply no_return_try_with; [unfold do; intros [e|v]; exact I | intros; exact I]].
  apply run_drive_page in E.
  apply run_write_free in Hclose as (ext3 & -> & Hext3); [|unfold do; solve_calls].
  apply run_write_free in Hstop as (ext2 & -> & Hext2); [|unfold do; solve_calls].
  apply recorded_after; [|exact Hext2]. apply recorded_after; [|exact Hext3].
  rewrite <- app_assoc in E. now apply recorded_before in E.
Qed.

End BindRecord.

(** The last four characters of a card number end it, and are not the whole
    of a number of more than four. *)
Lemma last4_spec (number : string) :
  (exists front, number = front +:+ Py.last 4 number)
  /\ String.length (Py.last 4 number) <= 4
  /\ (4 < String.length number ->
      String.length (Py.last 4 number) = 4 /\ Py.last 4 number <> number).
Proof.
  pose proof (length_last 4 number) as Hl. split; [|split].
  - exists (Py.take (String.length number - 4) number).
    unfold Py.last. symmetry. apply take_drop.
  - lia.
  - intros Hlong. split; [lia|]. intros E. rewrite E in Hl. lia.
Qed.

(** C9 (amended): every run of [bind_card_sync] that returns success has
    opened the file [已绑卡号.txt] for appending, read the time, written
    one line and closed the file, and has written nothing else.  The line is
    [email----last4----timestamp] followed by a newline: the e-mail address
    is the first field of the remark of the browser, the timestamp is the
    time just read, and [last4] is the last four characters of the number in
    the [card_info] handed to [bind_card_sync] (the end of the number, and
    never the whole of a number of more than four characters), or [N/A] when
    no [card_info] was handed over, the run then using the default card. *)
Theorem bind_record_written (DEFAULT_CARD : dict) (w : world run_resp)
    (browser_id : string) (card_info : option dict)
    (log_callback close_after : bool) (msg : string)
    (tr : list (event run_resp)) :
  run w (bind_card_sync DEFAULT_CARD browser_id card_info log_callback
           close_after) []
  = (Normal (Some (true, msg)), tr) ->
  exists (browser_info : dict) (timestamp : string)
         (before after : list (event run_resp)),
    let remark := default "" (browser_info !! "remark") in
    let email := Py.strip (default "" (Py.split "----" remark !! 0)) in
    let last4 :=
      if dict_falsy card_info then "N/A"
      else Py.last 4 (default "" (default ∅ card_info !! "number")) in
    let line := email +:+ "----" +:+ last4 +:+ "----" +:+ timestamp
                +:+ String (ascii_of_nat 10) EmptyString in
    w (GetBrowserInfo browser_id) [] = inr (Some browser_info)
    /\ tr = before ++ [existT (OpenAppend "已绑卡号.txt") (inr ());
                       existT Now (inr timestamp);
                       existT (FileWrite line) (inr ());
                       existT FileClose (inr ())] ++ after
    /\ writes before = [] /\ writes after = []
    /\ writes tr = [line]
    /\ (forall number,
          dict_falsy card_info = false ->
          default ∅ card_info !! "number" = Some number ->
          (exists front, number = front +:+ last4)
          /\ String.length last4 <= 4
          /\ (4 < String.length number ->
              String.length last4 = 4 /\ last4 <> number)).
Proof.
  intros H. unfold bind_card_sync in H. rewrite run_invoke in H.
  match type of H with context [run w ?p []] =>
    destruct (run w p []) as [[[]|[b m]|e] t] eqn:E end; try discriminate H.
  injection H as -> -> ->.
  rewrite run_bind in E. unfold do at 1 in E. rewrite run_perform in E.
  destruct (w (GetBrowserInfo browser_id) []) as [e|info] eqn:Einfo;
    [discriminate E|].
  cbv beta iota in E.
  destruct (dict_falsy info) eqn:Hinfo; [discriminate E|].
  destruct info as [browser_info|]; [|discriminate Hinfo].
  change (default ∅ (Some browser_info)) with browser_info in E.
  set (account := account_of_parts _) in E.
  set (email := Py.strip (default ""
                  (Py.split "----" (default "" (browser_info !! "remark")) !! 0))).
  assert (Hemail : default "" (account !! "email") = email).
  { subst account. unfold account_of_parts. now rewrite lookup_insert_eq. }
  unfold log in E.
  match type of E with
  | context [bind (do (OpenBrowser browser_id)) ?f] =>
      set (K := bind (do (OpenBrowser browser_id)) f) in E
  end.
  assert (Hrest : forall tr0, writes tr0 = [] ->
    run w K tr0 = (Return (true, msg), tr) -> recorded email card_info [] tr).
  { clear E. subst K. intros tr0 Hw0 E.
    rewrite run_bind in E. unfold do at 1 in E. rewrite run_perform in E.
    destruct (w (OpenBrowser browser_id) tr0) as [e|res]; [discriminate E|].
    cbv beta iota in E.
    destruct (negb (open_success res)); [discriminate E|].
    destruct (negb (Py.truthy (default "" (open_ws res)))).
    - exec E. match type of E with context [w ?c ?t] =>
        destruct (w c t) as [?|?] end; discriminate E.
    - apply run_try_finally_return in E as (tr1 & E & Hfin);
        [|destruct close_after; [unfold do; intros [e|v]|]; exact I].
      apply run_bind_in_session in E. rewrite Hemail in E.
      apply run_write_free in Hfin as (ext & -> & Hext);
        [|destruct close_after; unfold do; solve_calls].
      apply recorded_after; [|exact Hext].
      refine (recorded_before _ _ [] _ _ _ E).
      rewrite writes_app, Hw0. reflexivity. }
  clearbody K.
  assert (Hgoal : recorded email card_info [] tr).
  { destruct log_callback; exec E.
    - match type of E with context [w (LogCallback ?m) ?t] =>
        destruct (w (LogCallback m) t) as [e|[]] end; exec E;
        [discriminate E|].
      match type of E with context [w (LogCallback ?m) ?t] =>
        destruct (w (LogCallback m) t) as [e|[]] end; exec E;
        [discriminate E|].
      eapply Hrest; [|exact E]. reflexivity.
    - eapply Hrest; [|exact E]. reflexivity. }
  destruct Hgoal as (ts & before & after & Htr & Hb & Ha).
  exists browser_info, ts, before, after. cbv zeta. fold email.
  rewrite app_nil_l in Htr.
  unfold record_events, bind_record, card_last4 in Htr.
  split; [reflexivity|]. split; [exact Htr|].
  split; [exact Hb|]. split; [exact Ha|]. split.
  - rewrite Htr, !writes_app, Hb, Ha. reflexivity.
  - intros number -> ->. apply last4_spec.
Qed.

(** C9 at a browser in which the card form is filled and saved, with a card
    handed over by the caller: the line carries the time the clock gave. *)
Lemma bind_record_written_witness :
  let tr := (run (run_world working_browser)
               (bind_card_sync ∅ "94b7f635" (Some a_card) true true) []).2 in
  exists timestamp before after,
    tr = before
         ++ [existT (OpenAppend "已绑卡号.txt") (inr ());
             existT Now (inr timestamp);
             existT (FileWrite ("a@x.com----4242----" +:+ timestamp +:+ newline))
                    (inr ());
             existT FileClose (inr ())]
         ++ after
    /\ writes tr = ["a@x.com----4242----" +:+ timestamp +:+ newline]
    /\ writes tr = ["a@x.com----4242----2025-01-01 12:00:00" +:+ newline].
Proof.
  intros tr. set (w := run_world working_browser).
  destruct (bind_record_written ∅ w "94b7f635" (Some a_card) true true
              "绑卡并订阅成功 (Subscribed)" tr)
    as (info & ts & before & after & Hinfo & Htr & Hb & Ha & Hw & _).
  - vm_compute. reflexivity.
  - injection Hinfo as <-. exists ts, before, after.
    split; [exact Htr | split; [exact Hw|]]. vm_compute. reflexivity.
Defined.

(** C9 as stated fails: the caller hands over no card, the run fills the
    form with the default card and succeeds, and the line written carries
    [N/A], not the last four digits of the card that was used. *)
Lemma bind_record_without_digits :
  let '(o, tr) := run (run_world working_browser)
                      (bind_card_sync a_card "94b7f635" None true true) [] in
  o = Normal (Some (true, "绑卡并订阅成功 (Subscribed)"))
  /\ page_fills tr
     = [(Locator (InFrame card_frame) "input" (Nth 0), "4242424242424242");
        (Locator (InFrame card_frame) "input" (Nth 1), "0326");
        (Locator (InFrame card_frame) "input" (Nth 2), "123")]
  /\ writes tr = ["a@x.com----N/A----2025-01-01 12:00:00" +:+ newline].
Proof. vm_compute. repeat split; reflexivity. Qed.
